(** * siriusxm2usb: the track pipeline of [siriusxm2usb.py], embedded and verified

    The development follows the script top to bottom:
    - Python values as [json.load] builds them, with truthiness and [str()];
    - the string methods the script calls ([join], [replace], [split]);
    - exceptions and a small error monad for [try]/[except];
    - [process_track_records] and its nested [extract_tracks];
    - [find_song_on_youtube];
    - the disk, the network and the log as an explicit world;
    - [getChannelJson], [process_track_records_from_file],
      [download_worker], [download_a_channel], [get_sorted_channels],
      [update_stations] and [main]. *)

From Stdlib Require Import ZArith Ascii String DecimalString Lia.
From stdpp Require Import gmap strings list sorting.

Local Open Scope Z_scope.

(** ** Python values *)

(** What [json.load] and the search client hand to the script.  A [dict] is
    kept as an association list in insertion order, because [data.values()]
    walks it in that order; a [float] is carried as its [repr] text, which is
    all the script ever observes of one (together with its truth value, which
    the text determines). *)
#[local] Unset Elimination Schemes.
Inductive pyval : Type :=
| PNone
| PBool (b : bool)
| PInt (z : Z)
| PFloat (r : string)
| PStr (s : string)
| PList (items : list pyval)
| PDict (kvs : list (string * pyval)).
#[local] Set Elimination Schemes.

(** Induction over a value reaches the items of a list and the values of a
    dict. *)
Section PyvalInduction.
Variable P : pyval -> Prop.
Hypothesis HNone : P PNone.
Hypothesis HBool : forall b, P (PBool b).
Hypothesis HInt : forall z, P (PInt z).
Hypothesis HFloat : forall r, P (PFloat r).
Hypothesis HStr : forall s, P (PStr s).
Hypothesis HList : forall items, Forall P items -> P (PList items).
Hypothesis HDict : forall kvs, Forall (fun kv => P (snd kv)) kvs -> P (PDict kvs).

Fixpoint pyval_ind (v : pyval) : P v :=
    match v with
    | PNone => HNone
    | PBool b => HBool b
    | PInt z => HInt z
    | PFloat r => HFloat r
    | PStr s => HStr s
    | PList items =>
        HList items
          ((fix all (l : list pyval) : Forall P l :=
              match l with
              | [] => @List.Forall_nil _ P
              | x :: rest => @List.Forall_cons _ P x rest (pyval_ind x) (all rest)
              end) items)
    | PDict kvs =>
        HDict kvs
          ((fix all (l : list (string * pyval)) : Forall (fun kv => P (snd kv)) l :=
              match l with
              | [] => @List.Forall_nil _ _
              | kv :: rest => @List.Forall_cons _ (fun kv => P (snd kv)) kv rest (pyval_ind (snd kv)) (all rest)
              end) kvs)
    end.
End PyvalInduction.

(** [key in d] and [d[key]] / [d.get(key)]. *)
Fixpoint dict_get (key : string) (kvs : list (string * pyval)) : option pyval :=
  match kvs with
  | [] => None
  | (k, v) :: rest => if decide (k = key) then Some v else dict_get key rest
  end.

Definition dict_values (kvs : list (string * pyval)) : list pyval := map snd kvs.

(** [bool(v)], as [if v:] tests it. *)
Definition py_truthy (v : pyval) : bool :=
  match v with
  | PNone => false
  | PBool b => b
  | PInt z => negb (z =? 0)
  | PFloat r => negb (bool_decide (r = "0.0") || bool_decide (r = "-0.0"))
  | PStr s => negb (bool_decide (s = ""))
  | PList items => match items with [] => false | _ => true end
  | PDict kvs => match kvs with [] => false | _ => true end
  end.

(** ** Strings *)

(** [sep.join(parts)]. *)
Fixpoint py_join (sep : string) (parts : list string) : string :=
  match parts with
  | [] => ""
  | [p] => p
  | p :: rest => p +:+ sep +:+ py_join sep rest
  end.

(** [s.replace(old, new)] for one-character [old] and [new]. *)
Fixpoint py_replace (old new : ascii) (s : string) : string :=
  match s with
  | EmptyString => EmptyString
  | String c rest =>
      String (if decide (c = old) then new else c) (py_replace old new rest)
  end.

(** [s.startswith(p)]. *)
Fixpoint startswith (p s : string) : bool :=
  match p, s with
  | EmptyString, _ => true
  | String a p', String b s' => bool_decide (a = b) && startswith p' s'
  | String _ _, EmptyString => false
  end.

(** [s[n:]]. *)
Fixpoint string_drop (n : nat) (s : string) : string :=
  match n, s with
  | O, _ => s
  | S n', String _ s' => string_drop n' s'
  | S _, EmptyString => EmptyString
  end.

(** The leftmost occurrence of [sep] in [s]: what stands before it and what
    stands after it. *)
Fixpoint partition_first (sep s : string) : option (string * string) :=
  if startswith sep s then Some (EmptyString, string_drop (String.length sep) s)
  else match s with
       | EmptyString => None
       | String c rest =>
           match partition_first sep rest with
           | Some (a, b) => Some (String c a, b)
           | None => None
           end
       end.

(** [s.split(sep, 1)] for a non-empty [sep]. *)
Definition py_split1 (sep s : string) : list string :=
  match partition_first sep s with
  | Some (a, b) => [a; b]
  | None => [s]
  end.

(** [sub in s]. *)
Definition contains (sub s : string) : bool :=
  match partition_first sub s with Some _ => true | None => false end.

(** ** [str()] and [repr()] *)

Definition str_of_int (z : Z) : string := NilZero.string_of_int (Z.to_int z).

Definition double_quote : ascii := ascii_of_nat 34.
Definition single_quote : ascii := ascii_of_nat 39.
Definition backslash : ascii := ascii_of_nat 92.

Definition hex_digit (n : nat) : ascii :=
  nth n ["0"; "1"; "2"; "3"; "4"; "5"; "6"; "7";
         "8"; "9"; "a"; "b"; "c"; "d"; "e"; "f"]%char "0"%char.

Fixpoint has_char (c : ascii) (s : string) : bool :=
  match s with
  | EmptyString => false
  | String a rest => bool_decide (a = c) || has_char c rest
  end.

(** The quote [repr] picks: a double quote only when the text holds a single
    quote and no double quote. *)
Definition repr_quote (s : string) : ascii :=
  if has_char single_quote s && negb (has_char double_quote s)
  then double_quote else single_quote.

(** One character of a [repr]: the quote and the backslash are escaped, tab,
    newline and carriage return get their letter, other control characters
    their hexadecimal code.  Bytes above 127 stand for the encoding of
    printable text and are copied. *)
Definition repr_char (q c : ascii) : string :=
  let n := nat_of_ascii c in
  if bool_decide (c = q) || bool_decide (c = backslash) then String backslash (String c "")
  else if bool_decide (n = 9%nat) then String backslash "t"
  else if bool_decide (n = 10%nat) then String backslash "n"
  else if bool_decide (n = 13%nat) then String backslash "r"
  else if bool_decide (n < 32)%nat || bool_decide (n = 127%nat)
       then String backslash (String "x" (String (hex_digit (n / 16)) (String (hex_digit (n mod 16)) "")))
  else String c "".

Fixpoint repr_body (q : ascii) (s : string) : string :=
  match s with
  | EmptyString => EmptyString
  | String c rest => repr_char q c +:+ repr_body q rest
  end.

Definition repr_str (s : string) : string :=
  let q := repr_quote s in
  String q (repr_body q s +:+ String q "").

Fixpoint py_repr (v : pyval) : string :=
  match v with
  | PNone => "None"
  | PBool true => "True"
  | PBool false => "False"
  | PInt z => str_of_int z
  | PFloat r => r
  | PStr s => repr_str s
  | PList items => "[" +:+ py_join ", " (map py_repr items) +:+ "]"
  | PDict kvs =>
      "{" +:+ py_join ", "
                (map (fun kv => repr_str (fst kv) +:+ ": " +:+ py_repr (snd kv)) kvs)
          +:+ "}"
  end.

(** [str(v)], which is what an f-string field [{v}] renders. *)
Definition py_str (v : pyval) : string :=
  match v with
  | PStr s => s
  | _ => py_repr v
  end.

(** ** Exceptions *)

(** The exception classes the script can meet.  Every one derives from
    [Exception]; [ancestors] lists a class with its base classes. *)
Inductive exn : Type :=
| Exception
| TypeError
| ValueError
| JSONDecodeError
| KeyError
| AttributeError
| OSError
| FileNotFoundError
| FileExistsError
| IsADirectoryError
| RequestException
| HTTPError
| RequestsConnectionError
| RequestsJSONDecodeError.

#[global] Instance exn_eq_dec : EqDecision exn.
Proof. solve_decision. Defined.

Definition ancestors (e : exn) : list exn :=
  match e with
  | Exception => [Exception]
  | TypeError => [TypeError; Exception]
  | ValueError => [ValueError; Exception]
  | JSONDecodeError => [JSONDecodeError; ValueError; Exception]
  | KeyError => [KeyError; Exception]
  | AttributeError => [AttributeError; Exception]
  | OSError => [OSError; Exception]
  | FileNotFoundError => [FileNotFoundError; OSError; Exception]
  | FileExistsError => [FileExistsError; OSError; Exception]
  | IsADirectoryError => [IsADirectoryError; OSError; Exception]
  | RequestException => [RequestException; OSError; Exception]
  | HTTPError => [HTTPError; RequestException; OSError; Exception]
  | RequestsConnectionError =>
      [RequestsConnectionError; RequestException; OSError; Exception]
  | RequestsJSONDecodeError =>
      [RequestsJSONDecodeError; RequestException; JSONDecodeError;
       ValueError; OSError; Exception]
  end.

(** [isinstance(e, cls)], the test an [except cls:] clause makes. *)
Definition exn_isinstance (e cls : exn) : bool := bool_decide (cls ∈ ancestors e).

(** [except (c1, c2, ...)]. *)
Definition caught_by (classes : list exn) (e : exn) : bool :=
  existsb (exn_isinstance e) classes.

(** A computation that returns or raises. *)
Inductive res (A : Type) : Type :=
| Ok (a : A)
| Raise (e : exn).
Arguments Ok {A} a.
Arguments Raise {A} e.

#[global] Instance res_ret : MRet res := fun A a => Ok a.
#[global] Instance res_bind : MBind res := fun A B f m =>
  match m with Ok a => f a | Raise e => Raise e end.

(** [for x in l: s = f(x, s)], stopping at the first exception. *)
Definition for_each {A S : Type} (f : A -> S -> res S) : list A -> S -> res S :=
  fix go (l : list A) (s : S) : res S :=
    match l with
    | [] => Ok s
    | x :: rest =>
        match f x s with
        | Ok s' => go rest s'
        | Raise e => Raise e
        end
    end.

(** ** The normalizer: [process_track_records] *)

(** The candidates of one dict: a dict under [track], else a list under
    [tracks], else nothing. *)
Definition tracks_to_process (data : list (string * pyval)) : list pyval :=
  match dict_get "track" data with
  | Some (PDict t) => [PDict t]
  | _ =>
      match dict_get "tracks" data with
      | Some (PList ts) => ts
      | _ => []
      end
  end.

(** One step of the comprehension that builds [artist_names]: a string is
    kept as it is, a dict gives its [name] when that is truthy, anything else
    is passed over. *)
Definition artist_name (artist : pyval) : option pyval :=
  match artist with
  | PStr s => Some (PStr s)
  | PDict d =>
      match dict_get "name" d with
      | Some n => if py_truthy n then Some n else None
      | None => None
      end
  | _ => None
  end.

Definition artist_names (artists : list pyval) : list pyval :=
  omap artist_name artists.

(** [sep.join(items)] on values: the first item that is no [str] raises
    [TypeError]. *)
Fixpoint all_strings (items : list pyval) : res (list string) :=
  match items with
  | [] => Ok []
  | PStr s :: rest =>
      match all_strings rest with
      | Ok ss => Ok (s :: ss)
      | Raise e => Raise e
      end
  | _ :: _ => Raise TypeError
  end.

Definition py_join_values (sep : string) (items : list pyval) : res string :=
  ss ← all_strings items; mret (py_join sep ss).

(** The body of [for track in tracks_to_process]. *)
Definition emit_track (track : pyval) (track_records : list string)
  : res (list string) :=
  match track with
  | PDict t =>
      match dict_get "artists" t, dict_get "title" t with
      | Some (PList artists), Some title =>
          match artist_names artists with
          | [] => Ok track_records
          | names =>
              artist_string ← py_join_values ", " names;
              if py_truthy title
              then Ok (track_records ++ [artist_string +:+ " - " +:+ py_str title])
              else Ok track_records
          end
      | _, _ => Ok track_records
      end
  | _ => Ok track_records
  end.

(** The nested function: the list [track_records] it appends to is threaded
    through.  The last loop of the dict case is [for value in data.values()],
    written over the pairs so that the recursion is structural. *)
Fixpoint extract_tracks (data : pyval) (track_records : list string)
  : res (list string) :=
  match data with
  | PDict kvs =>
      match for_each emit_track (tracks_to_process kvs) track_records with
      | Ok recs => for_each (fun kv => extract_tracks (snd kv)) kvs recs
      | Raise e => Raise e
      end
  | PList items => for_each extract_tracks items track_records
  | _ => Ok track_records
  end.

(** ** The world: disk, network, search service, log *)

Inductive level : Type := DEBUG | INFO | WARNING | ERROR | CRITICAL.

(** The tuple [download_a_channel] hands to the pool:
    [(url, filename, quality, output_folder, download)]. *)
Record task : Type := Task {
  task_url : string;
  task_filename : string;
  task_quality : string;
  task_output_folder : string;
  task_download : bool
}.

(** What [get_sorted_channels] returns: the formatted listing, or one of its
    four fixed answers (the last one ends in the text of the exception, which
    is not rendered here). *)
Inductive listing : Type :=
| Listing (text : string)
| ListingFileNotFound
| ListingInvalidJson
| ListingBadStructure
| ListingUnexpected.

(** What the script does to the outside, in the order it does it: a logger
    call with its message (and, where the message ends in [{e}], the
    exception), an HTTP request, a search, a task handed to the pool. *)
Inductive event : Type :=
| Log (lvl : level) (msg : string)
| LogExn (lvl : level) (msg : string) (e : exn)
| LogResults (lvl : level) (results : list pyval)
| LogCheckChannel (channel : string) (available : listing)
| HttpGet (url : string)
| YtSearch (query : string)
| ApplyAsync (t : task).

(** A path of the disk is a directory or a file; a file holds JSON text,
    kept as the value it parses to, or text that is no JSON ([None]), such as
    the empty file [open(path, 'w')] leaves behind. *)
Inductive node : Type :=
| Dir
| File (content : option pyval).

Record world : Type := World {
  files : gmap string node;
  trace : list event
}.

Inductive http_outcome : Type :=
| HttpRaised (e : exn)
| HttpResponse (status : Z) (body : option pyval).

(** [args], as [parse_args] returns it. *)
Record Args : Type := {
  args_debug : bool;
  args_channel : list string;
  args_download : bool
}.

(** Everything the script reaches through a library: the JSON parser
    ([None] is [JSONDecodeError]), [requests.get], the search client, the
    terminal, the command line, and what the pool's workers (or anyone else)
    have done to the disk by the time the dispatcher looks at it again. *)
Record env : Type := {
  json_loads : string -> option pyval;
  http_get : string -> http_outcome;
  yt_search : string -> res (list pyval);
  terminal_columns : res Z;
  disk_drift : world -> gmap string node;
  args : Args
}.

(** Stateful code: a function of the world that returns or raises and
    leaves a world behind. *)
Definition M (A : Type) : Type := world -> res A * world.

#[global] Instance M_ret : MRet M := fun A a w => (Ok a, w).
#[global] Instance M_bind : MBind M := fun A B f m w =>
  match m w with
  | (Ok a, w') => f a w'
  | (Raise e, w') => (Raise e, w')
  end.

Definition raise {A : Type} (e : exn) : M A := fun w => (Raise e, w).

Definition lift {A : Type} (r : res A) : M A := fun w => (r, w).

Definition emit (ev : event) : M unit :=
  fun w => (Ok tt, World (files w) (trace w ++ [ev])).

(** [try: body except classes as e: handler(e)]. *)
Definition try_except {A : Type} (body : M A) (classes : list exn)
    (handler : exn -> M A) : M A :=
  fun w =>
    match body w with
    | (Raise e, w') =>
        if caught_by classes e then handler e w' else (Raise e, w')
    | r => r
    end.

(** [for x in l: body(x)]. *)
Fixpoint for_ {A : Type} (l : list A) (body : A -> M unit) : M unit :=
  match l with
  | [] => mret tt
  | x :: rest => body x ;; for_ rest body
  end.

(** [os.path.exists(path)]. *)
Definition path_exists (path : string) : M bool :=
  fun w => (Ok (bool_decide (is_Some (files w !! path))), w).

(** [os.makedirs(path, exist_ok=True)]. *)
Definition makedirs (path : string) : M unit :=
  fun w =>
    match files w !! path with
    | Some (File _) => (Raise FileExistsError, w)
    | _ => (Ok tt, World (<[path := Dir]> (files w)) (trace w))
    end.

(** [open(path, 'w')]: the file is there and empty from now on. *)
Definition open_w (path : string) : M unit :=
  fun w =>
    match files w !! path with
    | Some Dir => (Raise IsADirectoryError, w)
    | _ => (Ok tt, World (<[path := File None]> (files w)) (trace w))
    end.

(** [json.dump(v, f)] into the file just opened. *)
Definition json_dump (v : pyval) (path : string) : M unit :=
  fun w => (Ok tt, World (<[path := File (Some v)]> (files w)) (trace w)).

(** [json.load(open(path, 'r'))]. *)
Definition json_load (path : string) : M pyval :=
  fun w =>
    match files w !! path with
    | None => (Raise FileNotFoundError, w)
    | Some Dir => (Raise IsADirectoryError, w)
    | Some (File None) => (Raise JSONDecodeError, w)
    | Some (File (Some v)) => (Ok v, w)
    end.

(** [response.raise_for_status()]: [HTTPError] for 4xx and 5xx. *)
Definition raise_for_status (status : Z) : M unit :=
  if bool_decide (400 <= status < 600) then raise HTTPError else mret tt.

(** [response.json()]. *)
Definition response_json (body : option pyval) : M pyval :=
  match body with
  | Some v => mret v
  | None => raise RequestsJSONDecodeError
  end.

(** ** The script *)

Section Script.
Context (E : env).

(** [requests.get(url, headers=headers)]: the response's status and body. *)
Definition requests_get (url : string) : M (Z * option pyval) :=
  emit (HttpGet url) ;;
  match http_get E url with
  | HttpRaised e => raise e
  | HttpResponse status body => mret (status, body)
  end.

(** [process_track_records(json_data)]: a [str] is parsed first, anything
    else is walked as it is; the two classes of the [except] clause give the
    empty list, and with it drop what [track_records] held. *)
Definition process_track_records (json_data : pyval) : res (list string) :=
  let body : res (list string) :=
    data ← match json_data with
            | PStr text =>
                match json_loads E text with
                | Some d => Ok d
                | None => Raise JSONDecodeError
                end
            | _ => Ok json_data
            end;
    extract_tracks data [] in
  match body with
  | Ok track_records => Ok track_records
  | Raise e =>
      if caught_by [JSONDecodeError; TypeError] e then Ok [] else Raise e
  end.

(** [filepath] is [None] when [getChannelJson] returned [None]; [open(None)]
    raises [TypeError]. *)
Definition process_track_records_from_file (filepath : option string)
  : M (list string) :=
  try_except
    (match filepath with
     | None => raise TypeError
     | Some path =>
         json_data ← json_load path;
         lift (process_track_records json_data)
     end)
    [FileNotFoundError; JSONDecodeError; OSError]
    (fun e =>
       emit (LogExn ERROR ("Error processing file " +:+
                           match filepath with Some p => p | None => "None" end
                           +:+ ": ") e) ;;
       mret []).

(** The test of one search result. *)
Definition is_song (item : pyval) : option pyval :=
  match item with
  | PDict d =>
      match dict_get "category" d, dict_get "videoId" d with
      | Some (PStr category), Some vid =>
          if bool_decide (category = "Songs") then
            match vid with PNone => None | _ => Some vid end
          else None
      | _, _ => None
      end
  | _ => None
  end.

Definition watch_url (vid : pyval) : string :=
  "https://music.youtube.com/watch?v=" +:+ py_str vid.

(** [for item in search_results: ...], falling off the end with [None]. *)
Fixpoint scan_results (search_results items : list pyval) : M (option string) :=
  match items with
  | [] => mret None
  | item :: rest =>
      match is_song item with
      | Some vid => mret (Some (watch_url vid))
      | None =>
          emit (Log ERROR "Error finding song on youtube:") ;;
          emit (LogResults INFO search_results) ;;
          scan_results search_results rest
      end
  end.

(** [f'{artist} - {title}']. *)
Definition search_param (artist title : string) : string :=
  artist +:+ " - " +:+ title.

Definition find_song_on_youtube (artist title : string) : M (option string) :=
  emit (YtSearch (search_param artist title)) ;;
  search_results ← lift (yt_search E (search_param artist title));
  scan_results search_results search_results.






Definition channel_json_path (channel : string) : string :=
  "json/" +:+ channel +:+ ".json".

Definition channel_url (channel : string) : string :=
  "https://xmplaylist.com/api/station/" +:+ channel +:+ "/most-heard?days=30".

(** Both ways out of the [if] reach the final [return jsonfilepath]; the
    handler returns [None] before it. *)
Definition getChannelJson (channel : string) : M (option string) :=
  let jsonfilepath := channel_json_path channel in
  there ← path_exists jsonfilepath;
  if negb there then
    makedirs "json" ;;
    try_except
      ('(status, body) ← requests_get (channel_url channel);
       raise_for_status status ;;
       open_w jsonfilepath ;;
       data ← response_json body;
       json_dump data jsonfilepath ;;
       emit (Log INFO ("Successfully fetched and saved JSON for channel " +:+ channel)) ;;
       mret (Some jsonfilepath))
      [RequestException]
      (fun e =>
         emit (LogExn ERROR ("Failed to fetch JSON for channel " +:+ channel +:+ ": ") e) ;;
         mret None)
  else mret (Some jsonfilepath).

Definition sanitize (track : string) : string :=
  py_replace backslash "-" (py_replace "/" "-" track).

Definition dst_folder (channel : string) : string := "sirius-" +:+ channel.

(** The path of the existence test. *)
Definition mp3_path (channel track : string) : string :=
  dst_folder channel +:+ "/" +:+ sanitize track +:+ ".mp3".

(** The disk as it is when the dispatcher next looks. *)
Definition drift : M unit :=
  fun w => (Ok tt, World (disk_drift E w) (trace w)).

(** [a, t = parts]: anything but two parts is a [ValueError]. *)
Definition unpack2 (parts : list string) : res (string * string) :=
  match parts with
  | [a; t] => Ok (a, t)
  | _ => Raise ValueError
  end.

(** The body of [for track in track_list]. *)
Definition dispatch_track (channel track : string) : M unit :=
  emit (Log INFO ("working on track: " +:+ track)) ;;
  let track_sanitize := sanitize track in
  there ← path_exists (dst_folder channel +:+ "/" +:+ track_sanitize +:+ ".mp3");
  if negb there then
    '(a, t) ← lift (unpack2 (py_split1 " - " track));
    u ← find_song_on_youtube a t;
    match u with
    | Some url =>
        if py_truthy (PStr url) then
          emit (ApplyAsync (Task url track_sanitize "192" (dst_folder channel)
                                 (args_download (args E))))
        else emit (Log ERROR "ERROR: SONG NOT FOUND")
    | None => emit (Log ERROR "ERROR: SONG NOT FOUND")
    end
  else emit (Log WARNING ("File already exist: " +:+ track +:+ ".mp3")).

(** The loop over [track_list].  The pool is seen through the tasks handed
    to it: [apply_async] returns at once, and [close] and [join] wait and
    raise nothing, since nobody reads the results of the tasks. *)
Definition dispatch (channel : string) (track_list : list string) : M unit :=
  for_ track_list (fun track => drift ;; dispatch_track channel track).

Definition download_a_channel (channel : string) : M unit :=
  jsonfilepath ← getChannelJson channel;
  track_list ← process_track_records_from_file jsonfilepath;
  emit (Log INFO ("Downloading " +:+ str_of_int (Z.of_nat (length track_list))
                  +:+ " tracks to " +:+ dst_folder channel)) ;;
  dispatch channel track_list.

Definition stations_path : string := "json/stations.json".

(** [iter(v)], run to its end. *)
Definition py_iterate (v : pyval) : res (list pyval) :=
  match v with
  | PList items => Ok items
  | PDict kvs => Ok (map (fun kv => PStr (fst kv)) kvs)
  | PStr text => Ok (map (fun c => PStr (String c "")) (list_ascii_of_string text))
  | _ => Raise TypeError
  end.

(** [item['deeplink']]. *)
Definition deeplink_of (item : pyval) : res pyval :=
  match item with
  | PDict kvs =>
      match dict_get "deeplink" kvs with
      | Some v => Ok v
      | None => Raise KeyError
      end
  | _ => Raise TypeError
  end.

Fixpoint deeplinks (items : list pyval) : res (list pyval) :=
  match items with
  | [] => Ok []
  | item :: rest =>
      d ← deeplink_of item;
      ds ← deeplinks rest;
      mret (d :: ds)
  end.

(** [s.ljust(width)]. *)
Definition ljust (width : nat) (text : string) : string :=
  text +:+ string_of_list_ascii (replicate (width - String.length text) " "%char).

(** [l[i:i + n] for i in range(0, len(l), n)]. *)
Fixpoint rows_of {A : Type} (fuel n : nat) (l : list A) : list (list A) :=
  match fuel, l with
  | S fuel', _ :: _ => take n l :: rows_of fuel' n (drop n l)
  | _, _ => []
  end.

Definition max_list (l : list nat) : nat := foldr Nat.max 0%nat l.

(** The [try] block of [get_sorted_channels].  A deeplink that is no [str]
    fails in [sorted], [len] or [ljust]: whichever call raises, the exception
    is a [TypeError] or an [AttributeError] and reaches the last handler, so
    one [TypeError] stands for them. *)
Definition sorted_channels_try (json_file_path : string) : M string :=
  data ← json_load json_file_path;
  results ← match data with
             | PDict kvs => mret (default (PList []) (dict_get "results" kvs))
             | _ => raise AttributeError
             end;
  items ← lift (py_iterate results);
  links ← lift (deeplinks items);
  names ← lift (all_strings links);
  let channels := merge_sort String.le names in
  match channels with
  | [] => raise ValueError
  | _ =>
      let col_width := (max_list (map String.length channels) + 2)%nat in
      term_width ← lift (terminal_columns E);
      let num_cols := Z.to_nat (Z.max 1 (term_width / Z.of_nat col_width)) in
      let output :=
        map (fun row => py_join "" (map (ljust col_width) row))
            (rows_of (length channels) num_cols channels) in
      mret (py_join (String (ascii_of_nat 10) "") output)
  end.

(** The four [except] clauses, tried in their order. *)
Definition get_sorted_channels : M listing :=
  fun w =>
    match sorted_channels_try stations_path w with
    | (Ok text, w') => (Ok (Listing text), w')
    | (Raise e, w') =>
        if exn_isinstance e FileNotFoundError then (Ok ListingFileNotFound, w')
        else if exn_isinstance e JSONDecodeError then (Ok ListingInvalidJson, w')
        else if exn_isinstance e KeyError then (Ok ListingBadStructure, w')
        else if exn_isinstance e Exception then (Ok ListingUnexpected, w')
        else (Raise e, w')
    end.

Definition get_xm_stations : M (option pyval) :=
  try_except
    ('(status, body) ← requests_get "https://xmplaylist.com/api/station";
     raise_for_status status ;;
     data ← response_json body;
     match data with
     | PDict kvs =>
         match dict_get "results" kvs with
         | Some _ => mret (Some data)
         | None => emit (Log ERROR "Unexpected API response format") ;; mret None
         end
     | _ => emit (Log ERROR "Unexpected API response format") ;; mret None
     end)
    [RequestException]
    (fun e => emit (LogExn ERROR "Failed to fetch XM stations: " e) ;; mret None).

(** [save_stations_to_file(stations)], with its default [filename]. *)
Definition save_stations_to_file (stations : pyval) : M bool :=
  if negb (py_truthy stations) then
    emit (Log ERROR "No station data to save") ;; mret false
  else
    try_except
      (makedirs "json" ;;
       open_w stations_path ;;
       json_dump stations stations_path ;;
       emit (Log INFO ("Successfully saved station data to " +:+ stations_path)) ;;
       mret true)
      [Exception]
      (fun e => emit (LogExn ERROR "Failed to save stations to file: " e) ;; mret false).

Definition update_stations : M unit :=
  stations ← get_xm_stations;
  match stations with
  | Some data =>
      if py_truthy data then
        save_stations_to_file data ;; mret tt
      else mret tt
  | None => mret tt
  end.

(** The body of [for channel in args.channel]. *)
Definition run_channel (channel : string) : M unit :=
  try_except (download_a_channel channel) [Exception]
    (fun e =>
       available ← get_sorted_channels;
       emit (LogCheckChannel channel available)).

(** [main], from its [try] on (the set-up of the logger comes before it);
    its value is the exit code. *)
Definition main : M Z :=
  try_except
    (emit (Log INFO "Starting siriusxm2usb...") ;;
     (if args_debug (args E) then emit (Log DEBUG "Debug mode enabled") else mret tt) ;;
     emit (Log INFO "Updating station data") ;;
     update_stations ;;
     for_ (args_channel (args E)) run_channel ;;
     mret 0)
    [Exception]
    (fun e => emit (LogExn ERROR "An error occurred: " e) ;; mret 1).

End Script.

(** ** Sample documents and a sample environment *)

Definition track_of (artists : list pyval) (title : pyval) : pyval :=
  PDict [("artists", PList artists); ("title", title)].

Definition playlist (tracks : list pyval) : pyval :=
  PDict [("tracks", PList tracks)].

Definition named (name : pyval) : pyval := PDict [("name", name)].

Definition search_hit (category : string) (vid : pyval) : pyval :=
  PDict [("category", PStr category); ("videoId", vid)].

(** A service that knows three channels: [hits1] answers 200 with one
    track, [moved] answers 300 with a JSON body, anything else is a 404.
    The parser stub knows the one text the examples give it. *)
Definition sample_env : env :=
  {| json_loads := fun text =>
       if bool_decide (text = "[]") then Some (PList []) else None;
     http_get := fun url =>
       if bool_decide (url = channel_url "hits1") then
         HttpResponse 200 (Some (playlist [track_of [PStr "A"; named (PStr "B")] (PStr "T/x")]))
       else if bool_decide (url = channel_url "moved") then
         HttpResponse 300 (Some (playlist [track_of [PStr "C"] (PStr "U")]))
       else if bool_decide (url = "https://xmplaylist.com/api/station") then
         HttpResponse 200 (Some (PDict [("results",
            PList [PDict [("deeplink", PStr "moved")];
                   PDict [("deeplink", PStr "hits1")]])]))
       else HttpResponse 404 None;
     yt_search := fun query =>
       if bool_decide (query = "C - U") then
         Ok [search_hit "Videos" (PStr "v1"); search_hit "Songs" (PStr "v2")]
       else Ok [search_hit "Songs" (PStr "v0")];
     terminal_columns := Ok 80;
     disk_drift := files;
     args := {| args_debug := false;
                args_channel := ["nochannel"; "hits1"];
                args_download := false |} |}.

Definition empty_world : world := World ∅ [].

(** ** Notions the properties are stated with *)

Definition is_str (v : pyval) : bool := match v with PStr _ => true | _ => false end.


(** A record: an artist string, the separator, a title. *)
Definition is_record (r : string) : Prop :=
  exists artist title, r = artist +:+ " - " +:+ title.

(** The requests a trace holds, in order. *)
Definition fetches (tr : list event) : list string :=
  omap (fun ev => match ev with HttpGet url => Some url | _ => None end) tr.

(** The tasks a trace hands to the pool, in order. *)
Definition submitted (tr : list event) : list task :=
  omap (fun ev => match ev with ApplyAsync t => Some t | _ => None end) tr.

(** The searches a trace makes, in order. *)
Definition searches (tr : list event) : list string :=
  omap (fun ev => match ev with YtSearch q => Some q | _ => None end) tr.


(** The exception [getChannelJson] catches when the fetch fails: what
    [requests.get] raised, the [HTTPError] of a 4xx or 5xx status, or the
    decoding error of a body that is no JSON. *)
Definition fetch_failure (o : http_outcome) : option exn :=
  match o with
  | HttpRaised e => if exn_isinstance e RequestException then Some e else None
  | HttpResponse status body =>
      if bool_decide (400 <= status < 600) then Some HTTPError
      else match body with
           | None => Some RequestsJSONDecodeError
           | Some _ => None
           end
  end.

(** What [get_sorted_channels] answers in a given world. *)
Definition available_channels (E : env) (w : world) : listing :=
  match fst (get_sorted_channels E w) with
  | Ok l => l
  | Raise _ => ListingUnexpected
  end.

(** The logger calls of [main] before [update_stations]. *)
Definition start_log (E : env) : list event :=
  [Log INFO "Starting siriusxm2usb..."]
  ++ (if args_debug (args E) then [Log DEBUG "Debug mode enabled"] else [])
  ++ [Log INFO "Updating station data"].

(** The world after the channels have been run one after the other. *)
Definition after_channels (E : env) (channels : list string) (w : world) : world :=
  foldl (fun w channel => snd (run_channel E channel w)) w channels.

(** The world a fetch starts from: the [json] directory is there and the
    request is on the trace. *)
Definition fetching (channel : string) (w : world) : world :=
  World (<["json" := Dir]> (files w)) (trace w ++ [HttpGet (channel_url channel)]).

(** The first search result that passes the test, as a URL. *)
Definition first_song (search_results : list pyval) : option string :=
  watch_url <$> head (omap is_song search_results).

(** The search results looked at and turned down before the first one that
    passes. *)
Fixpoint rejected (items : list pyval) : list pyval :=
  match items with
  | [] => []
  | item :: rest =>
      match is_song item with
      | Some _ => []
      | None => item :: rejected rest
      end
  end.

(** The two logger calls made for each result turned down. *)
Definition scan_log (search_results items : list pyval) : list event :=
  flat_map (fun _ => [Log ERROR "Error finding song on youtube:";
                      LogResults INFO search_results]) (rejected items).

(** What one turn of the dispatcher's loop returns and adds to the trace,
    given whether the record's file is there. *)
Definition turn (E : env) (channel track : string) (there : bool)
  : res unit * list event :=
  let working := Log INFO ("working on track: " +:+ track) in
  if there then
    (Ok tt, [working; Log WARNING ("File already exist: " +:+ track +:+ ".mp3")])
  else
    match unpack2 (py_split1 " - " track) with
    | Raise e => (Raise e, [working])
    | Ok (a, t) =>
        match yt_search E (search_param a t) with
        | Raise e => (Raise e, [working; YtSearch (search_param a t)])
        | Ok results =>
            (Ok tt,
             [working; YtSearch (search_param a t)]
             ++ scan_log results results
             ++ [match first_song results with
                 | Some url =>
                     ApplyAsync (Task url (sanitize track) "192"
                                      (dst_folder channel) (args_download (args E)))
                 | None => Log ERROR "ERROR: SONG NOT FOUND"
                 end])
        end
    end.

(** What a stretch of trace may hold when it comes from the dispatcher's
    loop over [tracks]: no request to the playlist service, at most one
    search for each record, at most one task for each search, and every task
    made of a record's sanitized name, the quality "192", the channel's
    folder and the [--download] flag. *)
Definition dispatched (E : env) (channel : string) (tracks : list string)
    (evs : list event) : Prop :=
  fetches evs = []
  /\ (length (searches evs) <= length tracks)%nat
  /\ (length (submitted evs) <= length (searches evs))%nat
  /\ Forall (fun t => exists track,
                track ∈ tracks
                /\ t = Task (task_url t) (sanitize track) "192"
                            (dst_folder channel) (args_download (args E)))
            (submitted evs).






(** The sample environment with another service and another search. *)
Definition env_with (http : string -> http_outcome)
    (search : string -> res (list pyval)) : env :=
  {| json_loads := json_loads sample_env;
     http_get := http;
     yt_search := search;
     terminal_columns := terminal_columns sample_env;
     disk_drift := files;
     args := args sample_env |}.

(** The two logger calls of a turn that finds the record's file. *)
Definition skip_log (track : string) : list event :=
  [Log INFO ("working on track: " +:+ track);
   Log WARNING ("File already exist: " +:+ track +:+ ".mp3")].

(** An artist entry read as a name: the [name] of an object, the entry
    itself otherwise. *)
Definition name_of (artist : pyval) : pyval :=
  match artist with
  | PDict d => default PNone (dict_get "name" d)
  | _ => artist
  end.

(** An artist entry that is a non-empty string, or an object whose only key
    is a [name] that is one. *)
Definition plain_artist (a : pyval) : Prop :=
  exists s, s <> "" /\ (a = PStr s \/ a = named (PStr s)).


(** A step that only appends to the list it is given, and appends the same
    whatever the list holds. *)
Definition appends (f : list string -> res (list string)) : Prop :=
  forall acc, f acc = (new ← f []; Ok (acc ++ new)).

(** ** Properties: strings *)

(** [str()] of a list quotes its strings as [repr] does. *)
Example py_str_nested :
  py_str (PList [PStr "it's"; PInt (-3); PDict [("k", PBool true)]; PNone])
  = String "[" (String double_quote "it's") +:+ String double_quote ", -3, {'k': True}, None]".
Proof. vm_compute. reflexivity. Qed.

Lemma append_nil_l (s : string) : "" +:+ s = s.
Proof. reflexivity. Qed.

Lemma append_cons (c : ascii) (s t : string) :
  String c s +:+ t = String c (s +:+ t).
Proof. reflexivity. Qed.


Lemma startswith_append (p rest : string) : startswith p (p +:+ rest) = true.
Proof.
  induction p as [|c p IH]; [done|].
  rewrite append_cons. simpl. rewrite IH. by rewrite bool_decide_eq_true_2.
Qed.

Lemma startswith_drop (p s : string) :
  startswith p s = true -> s = p +:+ string_drop (String.length p) s.
Proof.
  revert s. induction p as [|c p IH]; intros s Hs; [done|].
  destruct s as [|b s]; [done|]. simpl in Hs.
  apply andb_true_iff in Hs as [Hc Hp].
  apply bool_decide_eq_true in Hc. subst b.
  rewrite append_cons. simpl. f_equal. by apply IH.
Qed.

(** What [partition_first] returns does surround an occurrence. *)
Lemma partition_first_sound (sep s a b : string) :
  partition_first sep s = Some (a, b) -> s = a +:+ sep +:+ b.
Proof.
  revert a b. induction s as [|c s IH]; intros a b.
  - simpl. destruct (startswith sep "") eqn:Hs; [|done].
    intros [= <- <-]. by apply startswith_drop in Hs.
  - simpl. destruct (startswith sep (String c s)) eqn:Hs.
    + intros [= <- <-]. by apply startswith_drop in Hs.
    + destruct (partition_first sep s) as [[a' b']|] eqn:Hp; [|done].
      intros [= <- <-]. rewrite append_cons. f_equal. by apply IH.
Qed.

(** A string that holds [sep] is split. *)
Lemma partition_first_complete (sep x y : string) :
  is_Some (partition_first sep (x +:+ sep +:+ y)).
Proof.
  induction x as [|c x IH].
  - rewrite append_nil_l.
    destruct y as [|d y], sep as [|e sep]; simpl; try by eexists.
    + pose proof (startswith_append (String e sep) "") as H.
      rewrite append_cons in H. simpl in H. rewrite H. by eexists.
    + pose proof (startswith_append (String e sep) (String d y)) as H.
      rewrite append_cons in H. simpl in H. rewrite H. by eexists.
  - rewrite append_cons. simpl.
    destruct (startswith sep (String c (x +:+ sep +:+ y))); [by eexists|].
    destruct IH as [[a b] ->]. by eexists.
Qed.

Lemma py_split1_two (sep x y : string) :
  exists a b, py_split1 sep (x +:+ sep +:+ y) = [a; b]
              /\ a +:+ sep +:+ b = x +:+ sep +:+ y.
Proof.
  unfold py_split1.
  destruct (partition_first_complete sep x y) as [[a b] Hp].
  rewrite Hp. exists a, b. split; [done|].
  symmetry. by apply partition_first_sound.
Qed.

Lemma contains_append (sep x y : string) : contains sep (x +:+ sep +:+ y) = true.
Proof.
  unfold contains. by destruct (partition_first_complete sep x y) as [[a b] ->].
Qed.

(** ** Properties: the normalizer *)

(** [for value in data.values()] and the loop over the pairs are the same
    loop. *)
Lemma for_each_values {S : Type} (f : pyval -> S -> res S) kvs s :
  for_each (fun kv => f (snd kv)) kvs s = for_each f (dict_values kvs) s.
Proof.
  revert s. induction kvs as [|kv rest IH]; intros s; simpl; [done|].
  destruct (f kv.2 s); [apply IH|done].
Qed.



Lemma for_each_cons {A S : Type} (f : A -> S -> res S) x l s :
  for_each f (x :: l) s =
  match f x s with
  | Ok s' => for_each f l s'
  | Raise e => Raise e
  end.
Proof. reflexivity. Qed.

Lemma for_each_app {A S : Type} (f : A -> S -> res S) l1 l2 s :
  for_each f (l1 ++ l2) s =
  match for_each f l1 s with
  | Ok s' => for_each f l2 s'
  | Raise e => Raise e
  end.
Proof.
  revert s. induction l1 as [|x l1 IH]; intros s; simpl; [done|].
  destruct (f x s); [apply IH|done].
Qed.

(** A loop raises only what its body raises. *)
Lemma for_each_raises {A S : Type} (f : A -> S -> res S) (Q : exn -> Prop) l :
  Forall (fun x => forall s e, f x s = Raise e -> Q e) l ->
  forall s e, for_each f l s = Raise e -> Q e.
Proof.
  induction 1 as [|x l Hx _ IH]; intros s e; simpl; [done|].
  destruct (f x s) as [s'|e'] eqn:Hf.
  - apply IH.
  - intros [= <-]. by eapply Hx.
Qed.

(** A loop keeps what its body keeps. *)
Lemma for_each_preserves {A S : Type} (f : A -> S -> res S) (I : S -> Prop) l :
  Forall (fun x => forall s s', I s -> f x s = Ok s' -> I s') l ->
  forall s s', I s -> for_each f l s = Ok s' -> I s'.
Proof.
  induction 1 as [|x l Hx _ IH]; intros s s' Hs; simpl.
  - by intros [= <-].
  - destruct (f x s) as [s1|e] eqn:Hf; [|done].
    apply IH. by eapply Hx.
Qed.

Lemma all_strings_raises items e : all_strings items = Raise e -> e = TypeError.
Proof.
  induction items as [|v items IH]; [done|].
  destruct v; simpl; try by intros [= <-].
  destruct (all_strings items); [done|].
  intros [= <-]. by apply IH.
Qed.

Lemma emit_track_raises track acc e :
  emit_track track acc = Raise e -> e = TypeError.
Proof.
  unfold emit_track.
  destruct track as [| | | | | |t]; try done.
  destruct (dict_get "artists" t) as [[| | | | |artists|]|]; try done.
  destruct (dict_get "title" t) as [title|]; try done.
  destruct (artist_names artists) as [|n names]; [done|].
  unfold py_join_values, mbind, res_bind, mret, res_ret.
  destruct (all_strings (n :: names)) eqn:Ha.
  - by destruct (py_truthy title).
  - intros [= <-]. by eapply all_strings_raises.
Qed.

(** The walk raises nothing but the [TypeError] of [join]. *)
Lemma extract_tracks_raises data :
  forall acc e, extract_tracks data acc = Raise e -> e = TypeError.
Proof.
  induction data as [| | | | |items IH|kvs IH] using pyval_ind;
    intros acc e; simpl; try done.
  - apply (for_each_raises _ (fun e => e = TypeError)).
    eapply Forall_impl; [exact IH|]. simpl. eauto.
  - destruct (for_each emit_track (tracks_to_process kvs) acc) as [recs|e'] eqn:He.
    + apply (for_each_raises _ (fun e => e = TypeError)).
      eapply Forall_impl; [exact IH|]. simpl. eauto.
    + intros [= <-].
      eapply (for_each_raises _ (fun e => e = TypeError)); [|exact He].
      apply Forall_forall. intros x _ s e0. apply emit_track_raises.
Qed.

(** What one candidate appends, when it appends: the names joined, the
    separator, the rendered title; the list of names is not empty and the
    title is truthy. *)
Lemma emit_track_parts track acc acc' :
  emit_track track acc = Ok acc' ->
  acc' = acc
  \/ exists names title,
       names <> [] /\ py_truthy title = true
       /\ acc' = acc ++ [py_join ", " names +:+ " - " +:+ py_str title].
Proof.
  unfold emit_track.
  destruct track as [| | | | | |t]; try (intros [= <-]; by left).
  destruct (dict_get "artists" t) as [[| | | | |artists|]|];
    try (intros [= <-]; by left).
  destruct (dict_get "title" t) as [title|]; try (intros [= <-]; by left).
  destruct (artist_names artists) as [|n names]; [intros [= <-]; by left|].
  unfold py_join_values, mbind, res_bind, mret, res_ret.
  destruct (all_strings (n :: names)) as [ss|] eqn:Hss; [|done].
  destruct (py_truthy title) eqn:Ht; intros [= <-]; [right|by left].
  exists ss, title. split_and!; [|done|done].
  intros ->. simpl in Hss. destruct n; try done.
  by destruct (all_strings names).
Qed.



(** Everything the walk appends is a record. *)
Lemma extract_tracks_records data :
  forall acc acc', Forall is_record acc -> extract_tracks data acc = Ok acc' ->
                   Forall is_record acc'.
Proof.
  induction data as [| | | | |items IH|kvs IH] using pyval_ind;
    intros acc acc' Hacc; simpl; try by intros [= <-].
  - apply (for_each_preserves _ (Forall is_record)); [|done].
    eapply Forall_impl; [exact IH|]. simpl. eauto.
  - destruct (for_each emit_track (tracks_to_process kvs) acc) as [recs|] eqn:He; [|done].
    apply (for_each_preserves _ (Forall is_record)).
    + eapply Forall_impl; [exact IH|]. simpl. eauto.
    + eapply (for_each_preserves _ (Forall is_record)); [|exact Hacc|exact He].
      apply Forall_forall. intros x _ s s' Hs Hx.
      apply emit_track_parts in Hx as [->|(names & title & _ & _ & ->)]; [done|].
      apply Forall_app. split; [done|].
      apply Forall_singleton. by eexists _, _.
Qed.

Lemma process_track_records_records (E : env) json_data records :
  process_track_records E json_data = Ok records -> Forall is_record records.
Proof.
  unfold process_track_records, mbind, res_bind.
  destruct (match json_data with
            | PStr text => match json_loads E text with
                           | Some d => Ok d
                           | None => Raise JSONDecodeError
                           end
            | _ => Ok json_data
            end) as [data|e].
  - destruct (extract_tracks data []) as [recs|e] eqn:Hx.
    + intros [= <-]. by eapply extract_tracks_records.
    + destruct (caught_by _ e); [|done]. by intros [= <-].
  - destruct (caught_by _ e); [|done]. by intros [= <-].
Qed.

Lemma process_track_records_returns (E : env) json_data :
  exists records, process_track_records E json_data = Ok records.
Proof.
  unfold process_track_records, mbind, res_bind.
  destruct (match json_data with
            | PStr text => match json_loads E text with
                           | Some d => Ok d
                           | None => Raise JSONDecodeError
                           end
            | _ => Ok json_data
            end) as [data|e] eqn:Hload.
  - destruct (extract_tracks data []) as [recs|e] eqn:Hx; [by eexists|].
    apply extract_tracks_raises in Hx as ->. by eexists.
  - assert (e = JSONDecodeError) as ->.
    { destruct json_data; try done. destruct (json_loads E s); congruence. }
    by eexists.
Qed.



(** The documents of the specification's examples. *)
Example flat_playlist :
  process_track_records sample_env (playlist [track_of [PStr "A"] (PStr "T")])
  = Ok ["A - T"].
Proof. reflexivity. Qed.

Example singular_track_nested :
  process_track_records sample_env
    (PList [PDict [("now", PDict [("track",
              track_of [PStr "A"; named (PStr "B")] (PStr "T"))])]])
  = Ok ["A, B - T"].
Proof. reflexivity. Qed.

Example track_without_title :
  process_track_records sample_env
    (playlist [PDict [("artists", PList [PStr "A"])];
               track_of [PStr "C"] (PStr "U")])
  = Ok ["C - U"].
Proof. reflexivity. Qed.

Example malformed_text :
  json_loads sample_env "{" = None
  /\ process_track_records sample_env (PStr "{") = Ok [].
Proof. split; reflexivity. Qed.




(** C2, on the code: an [artists] list that holds one empty string passes
    the filter of the comprehension (only a dict is asked for a truthy
    [name]), so the list of names is not empty and a record with an empty
    artist part is emitted for every non-empty title. *)
Theorem empty_string_artist_emits_record (E : env) (title : string) :
  process_track_records E (playlist [track_of [PStr ""] (PStr title)])
  = Ok (if bool_decide (title = "") then [] else [" - " +:+ title]).
Proof.
  unfold process_track_records, playlist, track_of. simpl.
  unfold tracks_to_process. simpl.
  by destruct (bool_decide (title = "")).
Qed.

(** C3, on the code: the object with an empty [name] is passed over and the
    empty bare string is kept, so a mixed list and the all-string list it
    maps to give different artist strings. *)
Theorem empty_name_object_and_empty_string_differ (E : env) :
  process_track_records E
    (playlist [track_of [PStr "A"; named (PStr "")] (PStr "T")]) = Ok ["A - T"]
  /\ process_track_records E
       (playlist [track_of [PStr "A"; PStr ""] (PStr "T")]) = Ok ["A,  - T"].
Proof. split; reflexivity. Qed.

Lemma artist_names_cons (a : pyval) (artists : list pyval) :
  artist_names (a :: artists)
  = match artist_name a with
    | Some n => n :: artist_names artists
    | None => artist_names artists
    end.
Proof. reflexivity. Qed.

(** Where every name is a non-empty string, mapping each object to its
    [name] does not change the names recovered. *)
Lemma artist_names_of_names (artists : list pyval) :
  Forall (fun a => exists s, s <> "" /\ (a = PStr s \/ a = named (PStr s))) artists ->
  artist_names artists
  = map (fun a => match a with
                  | PDict d => default PNone (dict_get "name" d)
                  | _ => a
                  end) artists.
Proof.
  induction 1 as [|a artists (s & Hs & [-> | ->]) _ IH]; [done| |];
    rewrite artist_names_cons, IH; simpl; [done|].
  by rewrite bool_decide_eq_false_2.
Qed.

(** C10: every string [process_track_records] returns holds the separator;
    [split(' - ', 1)] gives two parts, so the unpacking of the dispatcher
    does not raise, and the query the resolver builds from the two parts is
    the record again. *)
Theorem records_split_in_two_and_rejoin
    (E : env) (json_data : pyval) (records : list string) (r : string) :
  process_track_records E json_data = Ok records ->
  r ∈ records ->
  contains " - " r = true
  /\ exists a t, py_split1 " - " r = [a; t]
                 /\ unpack2 (py_split1 " - " r) = Ok (a, t)
                 /\ search_param a t = r.
Proof.
  intros Hp Hr.
  apply process_track_records_records in Hp.
  rewrite Forall_forall in Hp. destruct (Hp r Hr) as (x & y & ->).
  split; [apply contains_append|].
  destruct (py_split1_two " - " x y) as (a & t & Hs & Hj).
  exists a, t. rewrite Hs. by repeat split.
Qed.

(** C10, a run: the record of a one-track playlist. *)
Lemma records_split_in_two_and_rejoin_run :
  contains " - " "A, B - T" = true
  /\ exists a t, py_split1 " - " "A, B - T" = [a; t]
                 /\ unpack2 (py_split1 " - " "A, B - T") = Ok (a, t)
                 /\ search_param a t = "A, B - T".
Proof.
  apply (records_split_in_two_and_rejoin sample_env
           (playlist [track_of [PStr "A"; named (PStr "B")] (PStr "T")])
           ["A, B - T"] "A, B - T").
  - reflexivity.
  - apply list_elem_of_here.
Defined.

(** ** Properties: the resolver *)

Lemma is_song_spec (item vid : pyval) :
  is_song item = Some vid <->
  exists d, item = PDict d
            /\ dict_get "category" d = Some (PStr "Songs")
            /\ dict_get "videoId" d = Some vid
            /\ vid <> PNone.
Proof.
  split.
  - destruct item as [| | | | | |d]; try done. simpl.
    destruct (dict_get "category" d) as [[| | | |category| |]|] eqn:Hcat; try done.
    destruct (dict_get "videoId" d) as [v|] eqn:Hvid; try done.
    case_bool_decide as Hc; [|done]. subst category.
    destruct v; try done; intros [= <-]; exists d; by repeat split.
  - intros (d & -> & Hc & Hv & Hn). simpl. rewrite Hc, Hv.
    rewrite bool_decide_eq_true_2 by done. by destruct vid.
Qed.

Lemma scan_results_value (search_results items : list pyval) (w : world) :
  fst (scan_results search_results items w) = Ok (first_song items).
Proof.
  revert w. unfold first_song.
  induction items as [|item rest IH]; intros w; [done|]. simpl.
  destruct (is_song item) as [vid|]; [done|]. simpl.
  unfold mbind, M_bind. simpl. apply IH.
Qed.

(** C4 (as amended): the resolver returns the URL of the first result, in
    the order of the list, that is a dict whose [category] is "Songs" and
    whose [videoId] is not [None], and [None] when no result passes; a result
    after a failing one is looked at. *)
Theorem find_song_returns_first_song (E : env) (artist title : string) (w : world) :
  fst (find_song_on_youtube E artist title w)
  = (search_results ← yt_search E (search_param artist title);
     Ok (first_song search_results))
  /\ first_song [] = None
  /\ (forall top rest vid,
        is_song top = Some vid -> first_song (top :: rest) = Some (watch_url vid))
  /\ (forall top rest,
        is_song top = None -> first_song (top :: rest) = first_song rest)
  /\ (forall item vid,
        is_song item = Some vid <->
        exists d, item = PDict d
                  /\ dict_get "category" d = Some (PStr "Songs")
                  /\ dict_get "videoId" d = Some vid
                  /\ vid <> PNone).
Proof.
  repeat split.
  - unfold find_song_on_youtube, mbind, M_bind, res_bind, lift, emit. simpl.
    destruct (yt_search E (search_param artist title)) as [results|e]; [|done].
    apply scan_results_value.
  - intros top rest vid Hs. unfold first_song. simpl. by rewrite Hs.
  - intros top rest Hs. unfold first_song. simpl. by rewrite Hs.
  - by apply is_song_spec.
  - by apply is_song_spec.
Qed.

(** C4 as stated fails: the top result is a video, the second one a song,
    and the resolver returns the URL of the second. *)
Lemma second_result_is_returned :
  yt_search sample_env (search_param "C" "U")
  = Ok [search_hit "Videos" (PStr "v1"); search_hit "Songs" (PStr "v2")]
  /\ is_song (search_hit "Videos" (PStr "v1")) = None
  /\ fst (find_song_on_youtube sample_env "C" "U" empty_world)
     = Ok (Some "https://music.youtube.com/watch?v=v2").
Proof. repeat split. Qed.

(** ** Properties: the dispatcher *)

Lemma bind_run {A B : Type} (m : M A) (f : A -> M B) (w : world) :
  (m ≫= f) w = match m w with
               | (Ok a, w') => f a w'
               | (Raise e, w') => (Raise e, w')
               end.
Proof. reflexivity. Qed.

Lemma emit_run (ev : event) (w : world) :
  emit ev w = (Ok tt, World (files w) (trace w ++ [ev])).
Proof. reflexivity. Qed.

(** Runs a sequence of binds and logger calls as far as it is determined. *)
Ltac run := repeat first [rewrite bind_run | rewrite emit_run | progress simpl].

Lemma for_app {A : Type} (l1 l2 : list A) (body : A -> M unit) (w : world) :
  for_ (l1 ++ l2) body w =
  match for_ l1 body w with
  | (Ok _, w') => for_ l2 body w'
  | (Raise e, w') => (Raise e, w')
  end.
Proof.
  revert w. induction l1 as [|x l1 IH]; intros w; [done|].
  simpl. rewrite !bind_run. destruct (body x w) as [[[]|e] w']; [apply IH|done].
Qed.

Lemma world_eta (w : world) : World (files w) (trace w ++ []) = w.
Proof. destruct w. simpl. by rewrite app_nil_r. Qed.



(** C5: when the dispatcher reaches a record whose sanitized name, with
    [.mp3], is a file of the channel's folder at that moment, it makes the
    two logger calls and goes on with the next record: no search is made for
    the record and no task is handed to the pool. *)
Theorem dispatch_skips_existing_file
    (E : env) (channel : string) (pre : list string) (track : string)
    (rest : list string) (w w1 : world) :
  dispatch E channel pre w = (Ok tt, w1) ->
  is_Some (disk_drift E w1 !! mp3_path channel track) ->
  dispatch E channel (pre ++ track :: rest) w
  = dispatch E channel rest
      (World (disk_drift E w1)
             (trace w1 ++ [Log INFO ("working on track: " +:+ track);
                           Log WARNING ("File already exist: " +:+ track +:+ ".mp3")])).
Proof.
  intros Hpre Hfile. unfold dispatch in *.
  rewrite for_app, Hpre. run. unfold drift at 1. run.
  unfold dispatch_track. run. unfold path_exists. run.
  fold (mp3_path channel track).
  rewrite bool_decide_eq_true_2 by done. run. by rewrite <- app_assoc.
Qed.

(** C5, a run: the file of the only record is already there. *)
Lemma dispatch_skips_existing_file_run :
  let w := World {[ mp3_path "hits1" "A/B - T" := File None ]} [] in
  dispatch sample_env "hits1" ([] ++ "A/B - T" :: []) w
  = (Ok tt,
     World (files w)
           [Log INFO "working on track: A/B - T";
            Log WARNING "File already exist: A/B - T.mp3"]).
Proof.
  intros w.
  apply (dispatch_skips_existing_file sample_env "hits1" [] "A/B - T" [] w w).
  - reflexivity.
  - vm_compute. by eexists.
Defined.


Lemma submitted_app (a b : list event) :
  submitted (a ++ b) = submitted a ++ submitted b.
Proof. apply omap_app. Qed.

Lemma searches_app (a b : list event) :
  searches (a ++ b) = searches a ++ searches b.
Proof. apply omap_app. Qed.

Lemma fetches_app (a b : list event) :
  fetches (a ++ b) = fetches a ++ fetches b.
Proof. apply omap_app. Qed.



(** ** Properties: the channel cache *)

Lemma channel_json_path_not_json (channel : string) :
  channel_json_path channel <> "json".
Proof.
  unfold channel_json_path.
  change ("json/" +:+ channel +:+ ".json")
    with (String "j" (String "s" (String "o" (String "n"
            (String "/" (channel +:+ ".json")))))).
  discriminate.
Qed.

Lemma getChannelJson_cached (E : env) (channel : string) (w : world) :
  is_Some (files w !! channel_json_path channel) ->
  getChannelJson E channel w = (Ok (Some (channel_json_path channel)), w).
Proof.
  intros Hthere. unfold getChannelJson. run. unfold path_exists. run.
  by rewrite bool_decide_eq_true_2.
Qed.

Lemma getChannelJson_fetch (E : env) (channel : string) (w : world) :
  files w !! channel_json_path channel = None ->
  (forall c, files w !! "json" <> Some (File c)) ->
  let path := channel_json_path channel in
  let w1 := fetching channel w in
  let failed (e : exn) :=
    LogExn ERROR ("Failed to fetch JSON for channel " +:+ channel +:+ ": ") e in
  getChannelJson E channel w =
  match http_get E (channel_url channel) with
  | HttpRaised e =>
      if exn_isinstance e RequestException
      then (Ok None, World (files w1) (trace w1 ++ [failed e]))
      else (Raise e, w1)
  | HttpResponse status body =>
      if bool_decide (400 <= status < 600)
      then (Ok None, World (files w1) (trace w1 ++ [failed HTTPError]))
      else match body with
           | None =>
               (Ok None,
                World (<[path := File None]> (files w1))
                      (trace w1 ++ [failed RequestsJSONDecodeError]))
           | Some data =>
               (Ok (Some path),
                World (<[path := File (Some data)]> (files w1))
                      (trace w1 ++ [Log INFO ("Successfully fetched and saved JSON for channel "
                                              +:+ channel)]))
           end
  end.
Proof.
  intros Habsent Hjson path w1 failed. subst path w1 failed. unfold fetching.
  unfold getChannelJson. run. unfold path_exists. run.
  rewrite Habsent. run.
  unfold makedirs.
  destruct (files w !! "json") as [[|c]|] eqn:Hj; [|by destruct (Hjson c)|];
    unfold try_except, requests_get; run;
    (destruct (http_get E (channel_url channel)) as [e|status body];
     [ unfold raise; unfold caught_by; simpl; rewrite orb_false_r;
       by destruct (exn_isinstance e RequestException)
     | run; unfold raise_for_status;
       destruct (bool_decide (400 <= status < 600)); [done|];
       run; unfold open_w; simpl;
       rewrite lookup_insert_ne by (symmetry; apply channel_json_path_not_json);
       rewrite Habsent; run;
       destruct body as [data|]; run; [|done];
       unfold json_dump; run; by rewrite insert_insert_eq ]).
Qed.




(** ** Properties: the orchestrator *)

Lemma exn_is_exception (e : exn) : exn_isinstance e Exception = true.
Proof. by destruct e. Qed.

(** The [try] block of [get_sorted_channels] only reads. *)
Lemma sorted_channels_try_reads (E : env) (path : string) (w : world) :
  snd (sorted_channels_try E path w) = w.
Proof.
  unfold sorted_channels_try. run. unfold json_load.
  destruct (files w !! path) as [[|[data|]]|]; try done. run.
  destruct data as [| | | | | |kvs]; try done. run. unfold lift. run.
  destruct (py_iterate _) as [items|]; [|done]. run.
  destruct (deeplinks items) as [links|]; [|done]. run.
  destruct (all_strings links) as [names|]; [|done]. run.
  destruct (merge_sort String.le names) as [|c channels]; [done|]. run.
  by destruct (terminal_columns E).
Qed.

(** [get_sorted_channels] answers in every world and leaves it as it is. *)
Lemma get_sorted_channels_total (E : env) (w : world) :
  get_sorted_channels E w = (Ok (available_channels E w), w).
Proof.
  unfold available_channels, get_sorted_channels.
  pose proof (sorted_channels_try_reads E stations_path w) as Hw.
  destruct (sorted_channels_try E stations_path w) as [[text|e] w'];
    simpl in Hw; subst w'; [done|].
  destruct (exn_isinstance e FileNotFoundError); [done|].
  destruct (exn_isinstance e JSONDecodeError); [done|].
  destruct (exn_isinstance e KeyError); [done|].
  by rewrite exn_is_exception.
Qed.

(** Whatever a channel's run raises ends in the handler of the loop. *)
Lemma run_channel_run (E : env) (channel : string) (w : world) :
  run_channel E channel w
  = match download_a_channel E channel w with
    | (Ok _, w1) => (Ok tt, w1)
    | (Raise e, w1) =>
        (Ok tt, World (files w1)
                      (trace w1 ++ [LogCheckChannel channel (available_channels E w1)]))
    end.
Proof.
  unfold run_channel, try_except.
  destruct (download_a_channel E channel w) as [[[]|e] w1]; [done|].
  unfold caught_by. simpl. rewrite exn_is_exception. simpl.
  run. by rewrite get_sorted_channels_total.
Qed.

Lemma run_channel_returns (E : env) (channel : string) (w : world) :
  run_channel E channel w = (Ok tt, snd (run_channel E channel w)).
Proof.
  rewrite run_channel_run.
  by destruct (download_a_channel E channel w) as [[[]|e] w1].
Qed.

Lemma for_run_channel (E : env) (channels : list string) (w : world) :
  for_ channels (run_channel E) w = (Ok tt, after_channels E channels w).
Proof.
  revert w. induction channels as [|channel rest IH]; intros w; [done|].
  simpl. run. rewrite run_channel_returns. apply IH.
Qed.

(** C8: whatever exception a channel's run raises is caught by the handler
    of the loop, which logs the channel with what [get_sorted_channels]
    answers at that moment and returns; so the channels are run one after
    the other, each from the world the one before it left, and [main]
    returns 0.  It returns 1 only when [update_stations], before the loop,
    raises into the outer handler. *)
Theorem main_survives_channel_failures (E : env) (w : world) :
  (forall channel w0,
     run_channel E channel w0
     = match download_a_channel E channel w0 with
       | (Ok _, w1) => (Ok tt, w1)
       | (Raise e, w1) =>
           (Ok tt, World (files w1)
                         (trace w1 ++ [LogCheckChannel channel (available_channels E w1)]))
       end)
  /\ (forall w1, get_sorted_channels E w1 = (Ok (available_channels E w1), w1))
  /\ (forall channels w0,
        for_ channels (run_channel E) w0 = (Ok tt, after_channels E channels w0))
  /\ match update_stations E (World (files w) (trace w ++ start_log E)) with
     | (Ok _, w1) =>
         main E w = (Ok 0, after_channels E (args_channel (args E)) w1)
     | (Raise e, w1) =>
         main E w = (Ok 1, World (files w1)
                                 (trace w1 ++ [LogExn ERROR "An error occurred: " e]))
     end.
Proof.
  split_and!.
  - apply run_channel_run.
  - apply get_sorted_channels_total.
  - apply for_run_channel.
  - unfold main, try_except, start_log.
    destruct (args_debug (args E)); run; rewrite <- ?app_assoc; simpl;
      (destruct (update_stations E _) as [[[]|e] w1]; run;
       [by rewrite for_run_channel
       |unfold caught_by; simpl; by rewrite exn_is_exception]).
Qed.

(** C8, a run: the first of two channels fails, its handler logs the
    listing read from the station cache of that moment, the second channel
    is still run, and the exit code is 0. *)
Lemma main_survives_channel_failures_run :
  fst (main sample_env empty_world) = Ok 0
  /\ LogCheckChannel "nochannel" (Listing "hits1  moved  ")
     ∈ trace (snd (main sample_env empty_world))
  /\ submitted (trace (snd (main sample_env empty_world)))
     = [Task "https://music.youtube.com/watch?v=v0" "A, B - T-x" "192"
             "sirius-hits1" false].
Proof.
  destruct (main_survives_channel_failures sample_env empty_world)
    as (_ & _ & _ & Hmain).
  destruct (update_stations sample_env _) as [[[]|e] w1] eqn:Hu.
  - split; [by rewrite Hmain|]. split.
    + vm_compute. repeat first [apply list_elem_of_here | apply list_elem_of_further].
    + vm_compute. reflexivity.
  - vm_compute in Hu. discriminate.
Defined.

Lemma fetch_failure_run (E : env) (channel : string) (w : world) (e : exn) :
  files w !! channel_json_path channel = None ->
  (forall c, files w !! "json" <> Some (File c)) ->
  fetch_failure (http_get E (channel_url channel)) = Some e ->
  exists fs,
    getChannelJson E channel w
    = (Ok None,
       World fs (trace w ++ [HttpGet (channel_url channel);
                             LogExn ERROR ("Failed to fetch JSON for channel "
                                           +:+ channel +:+ ": ") e])).
Proof.
  intros Habsent Hjson Hfail.
  rewrite (getChannelJson_fetch E channel w Habsent Hjson). simpl.
  unfold fetch_failure in Hfail.
  destruct (http_get E (channel_url channel)) as [e'|status body].
  - destruct (exn_isinstance e' RequestException); [|done].
    injection Hfail as ->. eexists. by rewrite <- app_assoc.
  - destruct (bool_decide (400 <= status < 600)).
    + injection Hfail as <-. eexists. by rewrite <- app_assoc.
    + destruct body; [done|]. injection Hfail as <-.
      eexists. by rewrite <- app_assoc.
Qed.

Lemma process_track_records_from_file_None (E : env) (w : world) :
  process_track_records_from_file E None w = (Raise TypeError, w).
Proof. reflexivity. Qed.

(** C9 (as amended): when the fetch for a channel fails, [getChannelJson]
    logs the failure and returns [None]; [process_track_records_from_file]
    then raises [TypeError] on that [None], which its [except] clause does
    not name, so [download_a_channel] raises and no record list is produced;
    the handler of the loop in [main] logs the channel and the run goes on
    with the next channel. *)
Theorem fetch_failure_aborts_channel
    (E : env) (channel : string) (w : world) (e : exn) :
  files w !! channel_json_path channel = None ->
  (forall c, files w !! "json" <> Some (File c)) ->
  fetch_failure (http_get E (channel_url channel)) = Some e ->
  exists w',
    getChannelJson E channel w = (Ok None, w')
    /\ trace w' = trace w ++ [HttpGet (channel_url channel);
                              LogExn ERROR ("Failed to fetch JSON for channel "
                                            +:+ channel +:+ ": ") e]
    /\ process_track_records_from_file E None w' = (Raise TypeError, w')
    /\ download_a_channel E channel w = (Raise TypeError, w')
    /\ run_channel E channel w
       = (Ok tt, World (files w')
                       (trace w' ++ [LogCheckChannel channel (available_channels E w')])).
Proof.
  intros Habsent Hjson Hfail.
  destruct (fetch_failure_run E channel w e Habsent Hjson Hfail) as [fs Hget].
  eexists. split; [exact Hget|]. split; [done|].
  split; [apply process_track_records_from_file_None|].
  assert (download_a_channel E channel w
          = (Raise TypeError,
             World fs (trace w ++ [HttpGet (channel_url channel);
                                   LogExn ERROR ("Failed to fetch JSON for channel "
                                                 +:+ channel +:+ ": ") e]))) as Hdl.
  { unfold download_a_channel. run. by rewrite Hget. }
  split; [exact Hdl|]. by rewrite run_channel_run, Hdl.
Qed.

(** C9, a run: the service answers 404 for the channel. *)
Lemma fetch_failure_aborts_channel_run :
  exists w',
    getChannelJson sample_env "nochannel" empty_world = (Ok None, w')
    /\ download_a_channel sample_env "nochannel" empty_world = (Raise TypeError, w').
Proof.
  destruct (fetch_failure_aborts_channel sample_env "nochannel" empty_world HTTPError)
    as (w' & Hget & _ & _ & Hdl & _).
  - reflexivity.
  - intros c. vm_compute. discriminate.
  - vm_compute. reflexivity.
  - by exists w'.
Defined.

(** C9 as stated fails: after the 404 the caller does not return an empty
    list, it raises. *)
Lemma failed_fetch_raises_type_error :
  http_get sample_env (channel_url "nochannel") = HttpResponse 404 None
  /\ fst (getChannelJson sample_env "nochannel" empty_world) = Ok None
  /\ fst (process_track_records_from_file sample_env None
            (snd (getChannelJson sample_env "nochannel" empty_world)))
     = Raise TypeError
  /\ fst (download_a_channel sample_env "nochannel" empty_world) = Raise TypeError.
Proof. repeat split; vm_compute; reflexivity. Qed.

(** ** More properties of the normalizer *)



Lemma emit_track_appends (track : pyval) : appends (emit_track track).
Proof.
  intros acc. unfold emit_track.
  destruct track as [| | | | | |t]; try (simpl; by rewrite app_nil_r).
  destruct (dict_get "artists" t) as [[| | | | |artists|]|];
    try (simpl; by rewrite app_nil_r).
  destruct (dict_get "title" t) as [title|]; try (simpl; by rewrite app_nil_r).
  destruct (artist_names artists) as [|n names]; [simpl; by rewrite app_nil_r|].
  unfold mbind, res_bind.
  destruct (py_join_values ", " (n :: names)); [|done].
  destruct (py_truthy title); simpl; [done|by rewrite app_nil_r].
Qed.

Lemma appends_nil (f : list string -> res (list string)) :
  (forall acc, f acc = Ok acc) -> appends f.
Proof. intros Hf acc. rewrite !Hf. simpl. by rewrite app_nil_r. Qed.

Lemma for_each_appends {A : Type} (g : A -> list string -> res (list string)) l :
  Forall (fun x => appends (g x)) l -> appends (for_each g l).
Proof.
  induction 1 as [|x l Hx _ IH]; intros acc.
  - simpl. by rewrite app_nil_r.
  - rewrite !for_each_cons. rewrite (Hx acc). unfold mbind, res_bind.
    destruct (g x []) as [n1|e]; [|done].
    simpl. rewrite (IH (acc ++ n1)), (IH n1). unfold mbind, res_bind.
    destruct (for_each g l []) as [n2|e]; [|done].
    by rewrite app_assoc.
Qed.

Lemma appends_then (f g : list string -> res (list string)) :
  appends f -> appends g ->
  appends (fun acc => match f acc with Ok r => g r | Raise e => Raise e end).
Proof.
  intros Hf Hg acc. rewrite (Hf acc). unfold mbind, res_bind.
  destruct (f []) as [n1|e]; [|done].
  simpl. rewrite (Hg (acc ++ n1)), (Hg n1). unfold mbind, res_bind.
  destruct (g []) as [n2|e]; [|done]. by rewrite app_assoc.
Qed.

Lemma extract_tracks_appends (data : pyval) : appends (extract_tracks data).
Proof.
  induction data as [| | | | |items IH|kvs IH] using pyval_ind;
    try (by apply appends_nil).
  - simpl. by apply for_each_appends.
  - simpl. apply appends_then.
    + apply for_each_appends, Forall_forall. intros x _. apply emit_track_appends.
    + by apply for_each_appends.
Qed.

(** On a value that is no [str], the function is the walk, with an
    exception turned into the empty list. *)
Lemma process_track_records_of_value (E : env) (data : pyval) :
  is_str data = false ->
  process_track_records E data
  = match extract_tracks data [] with
    | Ok records => Ok records
    | Raise _ => Ok []
    end.
Proof.
  intros Hs. unfold process_track_records, mbind, res_bind.
  assert (match data with
          | PStr text => match json_loads E text with
                         | Some d => Ok d
                         | None => Raise JSONDecodeError
                         end
          | _ => Ok data
          end = Ok data) as -> by (by destruct data).
  destruct (extract_tracks data []) as [records|e] eqn:Hx; [done|].
  by apply extract_tracks_raises in Hx as ->.
Qed.

(** X3: the walk only appends, and what it appends does not depend on what
    the list already holds; so the records of a list of documents are the
    records of its items one after the other, in the order of the list, with
    nothing merged or dropped. *)
Theorem extract_tracks_appends_in_order
    (E : env) (data : pyval) (acc : list string) (xs ys : list pyval) :
  extract_tracks data acc = (new ← extract_tracks data []; Ok (acc ++ new))
  /\ extract_tracks (PList (xs ++ ys)) []
     = (rx ← extract_tracks (PList xs) [];
        ry ← extract_tracks (PList ys) [];
        Ok (rx ++ ry))
  /\ (forall rx ry,
        extract_tracks (PList xs) [] = Ok rx ->
        extract_tracks (PList ys) [] = Ok ry ->
        process_track_records E (PList (xs ++ ys)) = Ok (rx ++ ry)).
Proof.
  assert (extract_tracks (PList (xs ++ ys)) []
          = (rx ← extract_tracks (PList xs) [];
             ry ← extract_tracks (PList ys) [];
             Ok (rx ++ ry))) as Hcat.
  { simpl. rewrite for_each_app. unfold mbind, res_bind.
    destruct (for_each extract_tracks xs []) as [rx|e]; [|done].
    apply (extract_tracks_appends (PList ys) rx). }
  split_and!; [apply extract_tracks_appends|exact Hcat|].
  intros rx ry Hx Hy. rewrite process_track_records_of_value by done.
  by rewrite Hcat, Hx, Hy.
Qed.


Lemma for_each_extract_plain (artists : list pyval) :
  Forall plain_artist artists ->
  forall acc, for_each extract_tracks artists acc = Ok acc.
Proof.
  induction 1 as [|a artists (s & _ & [-> | ->]) _ IH]; intros acc; [done| |];
    rewrite for_each_cons; simpl; apply IH.
Qed.

Lemma emit_track_by_names (l1 l2 : list pyval) (title : pyval) acc :
  artist_names l1 = artist_names l2 ->
  emit_track (track_of l1 title) acc = emit_track (track_of l2 title) acc.
Proof. intros Hn. unfold emit_track, track_of. simpl. by rewrite Hn. Qed.

Lemma extract_track_of_plain (artists : list pyval) (title : pyval) acc :
  Forall plain_artist artists ->
  extract_tracks (track_of artists title) acc = extract_tracks title acc.
Proof.
  intros Hp. unfold track_of. simpl. unfold tracks_to_process. simpl.
  rewrite (for_each_extract_plain artists Hp).
  by destruct (extract_tracks title acc).
Qed.

Lemma artist_names_plain (l1 l2 : list pyval) :
  Forall plain_artist l1 -> Forall plain_artist l2 ->
  map name_of l1 = map name_of l2 -> artist_names l1 = artist_names l2.
Proof.
  intros H1 H2 Hmap.
  rewrite (artist_names_of_names l1), (artist_names_of_names l2); done.
Qed.

Lemma extract_tracks_playlist (tracks : list pyval) acc :
  extract_tracks (playlist tracks) acc
  = match for_each emit_track tracks acc with
    | Ok recs => for_each extract_tracks tracks recs
    | Raise e => Raise e
    end.
Proof.
  unfold playlist. simpl. unfold tracks_to_process. simpl.
  destruct (for_each emit_track tracks acc) as [recs|]; [|done].
  by destruct (for_each extract_tracks tracks recs).
Qed.

(** X2: where every artist entry is a non-empty string or an object whose
    [name] is one, two artist lists that agree once each object is replaced
    by its [name] give the same records, wherever the track stands in the
    playlist. *)
Theorem mixed_artists_same_records
    (E : env) (before after l1 l2 : list pyval) (title : pyval) :
  Forall plain_artist l1 -> Forall plain_artist l2 ->
  map name_of l1 = map name_of l2 ->
  process_track_records E (playlist (before ++ track_of l1 title :: after))
  = process_track_records E (playlist (before ++ track_of l2 title :: after)).
Proof.
  intros H1 H2 Hmap.
  pose proof (artist_names_plain l1 l2 H1 H2 Hmap) as Hn.
  rewrite !process_track_records_of_value by done.
  rewrite !extract_tracks_playlist, !for_each_app.
  destruct (for_each emit_track before []) as [r1|]; [|done].
  rewrite !for_each_cons, (emit_track_by_names l1 l2 title r1 Hn).
  destruct (emit_track (track_of l2 title) r1) as [r2|]; [|done].
  destruct (for_each emit_track after r2) as [r3|]; [|done].
  rewrite !for_each_app.
  destruct (for_each extract_tracks before r3) as [r4|]; [|done].
  by rewrite !for_each_cons, !extract_track_of_plain.
Qed.

(** X2, a run: a string and an object against two strings. *)
Lemma mixed_artists_same_records_run :
  process_track_records sample_env
    (playlist ([] ++ track_of [PStr "A"; named (PStr "B")] (PStr "T") :: []))
  = process_track_records sample_env
      (playlist ([] ++ track_of [PStr "A"; PStr "B"] (PStr "T") :: [])).
Proof.
  apply mixed_artists_same_records.
  - repeat constructor; [exists "A"|exists "B"]; split; auto; discriminate.
  - repeat constructor; [exists "A"|exists "B"]; split; auto; discriminate.
  - reflexivity.
Defined.

(** ** More properties of the file reader and the resolver *)

(** The reader on a path, by what the path holds. *)
Lemma process_from_file_path_run (E : env) (path : string) (w : world) :
  exists records evs,
    process_track_records_from_file E (Some path) w
    = (Ok records, World (files w) (trace w ++ evs))
    /\ match files w !! path with
       | Some (File (Some data)) =>
           process_track_records E data = Ok records /\ evs = []
       | Some (File None) =>
           records = []
           /\ evs = [LogExn ERROR ("Error processing file " +:+ path +:+ ": ")
                            JSONDecodeError]
       | Some Dir =>
           records = []
           /\ evs = [LogExn ERROR ("Error processing file " +:+ path +:+ ": ")
                            IsADirectoryError]
       | None =>
           records = []
           /\ evs = [LogExn ERROR ("Error processing file " +:+ path +:+ ": ")
                            FileNotFoundError]
       end.
Proof.
  unfold process_track_records_from_file, try_except. run. unfold json_load.
  destruct (files w !! path) as [[|[data|]]|] eqn:Hfile; run;
    try (eexists [], [_]; by split).
  unfold lift.
  destruct (process_track_records_returns E data) as [records ->].
  exists records, []. by rewrite world_eta.
Qed.


Lemma watch_url_not_empty (vid : pyval) : watch_url vid <> "".
Proof.
  unfold watch_url.
  change ("https://music.youtube.com/watch?v=" +:+ py_str vid)
    with (String "h" ("ttps://music.youtube.com/watch?v=" +:+ py_str vid)).
  discriminate.
Qed.

Lemma first_song_cons (item : pyval) (rest : list pyval) :
  first_song (item :: rest)
  = match is_song item with
    | Some vid => Some (watch_url vid)
    | None => first_song rest
    end.
Proof. unfold first_song. simpl. by destruct (is_song item). Qed.

(** The scan logs twice for each result turned down, and nothing else. *)
Lemma scan_results_trace (search_results items : list pyval) (w : world) :
  scan_results search_results items w
  = (Ok (first_song items),
     World (files w) (trace w ++ scan_log search_results items)).
Proof.
  revert w. induction items as [|item rest IH]; intros w.
  - unfold scan_log. simpl. by rewrite world_eta.
  - rewrite first_song_cons. unfold scan_log. simpl.
    destruct (is_song item) as [vid|] eqn:Hs.
    + simpl. by rewrite world_eta.
    + run. rewrite IH. simpl. by rewrite <- !app_assoc.
Qed.

(** The resolver, as a function of what the search client answers. *)
Lemma find_song_trace (E : env) (artist title : string) (w : world) :
  find_song_on_youtube E artist title w
  = match yt_search E (search_param artist title) with
    | Ok results =>
        (Ok (first_song results),
         World (files w)
               (trace w ++ YtSearch (search_param artist title)
                           :: scan_log results results))
    | Raise e =>
        (Raise e, World (files w) (trace w ++ [YtSearch (search_param artist title)]))
    end.
Proof.
  unfold find_song_on_youtube. run. unfold lift.
  destruct (yt_search E (search_param artist title)) as [results|e]; [|done].
  rewrite scan_results_trace. simpl. by rewrite <- app_assoc.
Qed.

Lemma first_song_url (results : list pyval) (url : string) :
  first_song results = Some url ->
  url <> ""
  /\ exists vid, vid <> PNone
                 /\ url = "https://music.youtube.com/watch?v=" +:+ py_str vid.
Proof.
  induction results as [|item rest IH]; [done|].
  rewrite first_song_cons. destruct (is_song item) as [vid|] eqn:Hs; [|done].
  intros [= <-]. split; [apply watch_url_not_empty|].
  exists vid. split; [|done].
  apply is_song_spec in Hs as (d & _ & _ & _ & Hn). done.
Qed.

(** X6: the resolver makes one search, for "artist - title", and does
    nothing else to the outside but log: an error and the whole result list
    for each result it turns down before the first that passes.  What the
    search client raises is not caught.  A URL it returns is never empty and
    is the fixed prefix followed by a [videoId] that is not [None]. *)
Theorem find_song_effects (E : env) (artist title : string) (w : world) :
  find_song_on_youtube E artist title w
  = match yt_search E (search_param artist title) with
    | Ok results =>
        (Ok (first_song results),
         World (files w)
               (trace w ++ YtSearch (search_param artist title)
                           :: scan_log results results))
    | Raise e =>
        (Raise e, World (files w) (trace w ++ [YtSearch (search_param artist title)]))
    end
  /\ (forall results url,
        first_song results = Some url ->
        url <> ""
        /\ exists vid, vid <> PNone
                       /\ url = "https://music.youtube.com/watch?v=" +:+ py_str vid).
Proof. split; [apply find_song_trace|apply first_song_url]. Qed.

(** ** More properties of the dispatcher *)

Lemma scan_log_quiet (search_results items : list pyval) :
  fetches (scan_log search_results items) = []
  /\ searches (scan_log search_results items) = []
  /\ submitted (scan_log search_results items) = [].
Proof.
  unfold scan_log. induction (rejected items) as [|x l (Hf & Hs & Hq)]; [done|].
  simpl. unfold fetches, searches, submitted in *. simpl. by rewrite Hf, Hs, Hq.
Qed.

(** One turn of the loop is [turn], at the truth of the existence test. *)
Lemma dispatch_track_turn (E : env) (channel track : string) (w : world) :
  let there := bool_decide (is_Some (files w !! mp3_path channel track)) in
  dispatch_track E channel track w
  = (fst (turn E channel track there),
     World (files w) (trace w ++ snd (turn E channel track there))).
Proof.
  intros there. subst there. unfold dispatch_track, turn. run.
  unfold path_exists. run. fold (mp3_path channel track).
  destruct (bool_decide (is_Some (files w !! mp3_path channel track))); run.
  { by rewrite <- app_assoc. }
  unfold lift. destruct (unpack2 (py_split1 " - " track)) as [[a t]|e]; [|done].
  run. rewrite find_song_trace. simpl.
  destruct (yt_search E (search_param a t)) as [results|e]; simpl.
  - destruct (first_song results) as [url|] eqn:Hfirst.
    + destruct (first_song_url results url Hfirst) as [Hne _].
      rewrite bool_decide_eq_false_2 by done. run.
      by rewrite <- !app_assoc.
    + run. by rewrite <- !app_assoc.
  - by rewrite <- !app_assoc.
Qed.

Lemma turn_dispatched (E : env) (channel track : string) (there : bool) :
  dispatched E channel [track] (snd (turn E channel track there)).
Proof.
  unfold turn, dispatched.
  destruct there; [by split_and!; simpl; auto|].
  destruct (unpack2 (py_split1 " - " track)) as [[a t]|e];
    [|by split_and!; simpl; auto].
  destruct (yt_search E (search_param a t)) as [results|e];
    [|by split_and!; simpl; auto].
  destruct (scan_log_quiet results results) as (Hf & Hs & Hq). simpl.
  rewrite !fetches_app, !searches_app, !submitted_app.
  unfold fetches, searches, submitted in *. simpl. rewrite Hf, Hs, Hq.
  destruct (first_song results) as [url|]; simpl; split_and!; auto.
  apply Forall_singleton. exists track. split; [apply list_elem_of_here|done].
Qed.

Lemma dispatched_app (E : env) (channel track : string) (rest : list string)
    (evs1 evs2 : list event) :
  dispatched E channel [track] evs1 -> dispatched E channel rest evs2 ->
  dispatched E channel (track :: rest) (evs1 ++ evs2).
Proof.
  intros (Hf1 & Hs1 & Hq1 & Ht1) (Hf2 & Hs2 & Hq2 & Ht2). unfold dispatched.
  rewrite fetches_app, searches_app, submitted_app, !length_app, Hf1, Hf2.
  simpl in *. split_and!; [done|lia|lia|].
  apply Forall_app. split.
  - eapply Forall_impl; [exact Ht1|]. intros t (track' & Hin & Ht).
    apply list_elem_of_singleton in Hin as ->.
    exists track. split; [apply list_elem_of_here|done].
  - eapply Forall_impl; [exact Ht2|]. intros t (track' & Hin & Ht).
    exists track'. split; [by apply list_elem_of_further|done].
Qed.

Lemma dispatched_stop (E : env) (channel track : string) (rest : list string)
    (evs : list event) :
  dispatched E channel [track] evs -> dispatched E channel (track :: rest) evs.
Proof.
  intros Hd. rewrite <- (app_nil_r evs). apply dispatched_app; [done|].
  unfold dispatched. simpl. split_and!; auto. lia.
Qed.

Lemma dispatch_cons (E : env) (channel track : string) (rest : list string)
    (w : world) :
  dispatch E channel (track :: rest) w
  = match dispatch_track E channel track (World (disk_drift E w) (trace w)) with
    | (Ok _, w') => dispatch E channel rest w'
    | (Raise e, w') => (Raise e, w')
    end.
Proof.
  unfold dispatch. simpl. rewrite !bind_run. unfold drift. simpl.
  by destruct (dispatch_track E channel track _) as [[[]|e] w'].
Qed.

(** The loop, whatever the disk becomes between two turns. *)
Lemma dispatch_events (E : env) (channel : string) (tracks : list string) (w : world) :
  exists r w' evs,
    dispatch E channel tracks w = (r, w')
    /\ trace w' = trace w ++ evs
    /\ dispatched E channel tracks evs.
Proof.
  revert w. induction tracks as [|track rest IH]; intros w.
  - exists (Ok tt), w, []. split_and!; [done|by rewrite app_nil_r|].
    unfold dispatched. simpl. split_and!; auto.
  - rewrite dispatch_cons, dispatch_track_turn. simpl.
    pose proof (turn_dispatched E channel track
                  (bool_decide (is_Some (disk_drift E w !! mp3_path channel track))))
      as Hturn.
    destruct (turn E channel track _) as [[[]|e] evs1]; simpl in *.
    + destruct (IH (World (disk_drift E w) (trace w ++ evs1)))
        as (r & w' & evs2 & -> & Htrace & Hd).
      exists r, w', (evs1 ++ evs2). split_and!; [done| |by apply dispatched_app].
      rewrite Htrace. simpl. by rewrite app_assoc.
    + eexists _, _, evs1. split_and!; [done|done|by apply dispatched_stop].
Qed.

(** The cache step: what it adds to the trace in every case. *)
Lemma getChannelJson_events (E : env) (channel : string) (w : world) :
  exists r w' evs,
    getChannelJson E channel w = (r, w')
    /\ trace w' = trace w ++ evs
    /\ submitted evs = [] /\ searches evs = []
    /\ (fetches evs = [] \/ fetches evs = [channel_url channel])
    /\ (is_Some (files w !! channel_json_path channel) -> fetches evs = [])
    /\ (forall p, r = Ok (Some p) ->
                  p = channel_json_path channel /\ is_Some (files w' !! p)).
Proof.
  destruct (files w !! channel_json_path channel) as [n|] eqn:Hpath.
  - exists (Ok (Some (channel_json_path channel))), w, [].
    rewrite getChannelJson_cached by (by rewrite Hpath).
    split_and!; [done|by rewrite app_nil_r|done|done|by left|done|].
    intros p [= <-]. by rewrite Hpath.
  - destruct (files w !! "json") as [[|c]|] eqn:Hjson.
    2:{ exists (Raise FileExistsError), w, [].
        split_and!; [|by rewrite app_nil_r|done|done|by left|done|done].
        unfold getChannelJson. run. unfold path_exists. run.
        rewrite Hpath. run. unfold makedirs. by rewrite Hjson. }
    all: rewrite (getChannelJson_fetch E channel w Hpath)
      by (intros c; rewrite Hjson; discriminate);
      simpl;
      destruct (http_get E (channel_url channel)) as [e|status body];
      [destruct (exn_isinstance e RequestException)
      |destruct (bool_decide (400 <= status < 600)); [|destruct body as [data|]]];
      eexists _, _, _; (split; [reflexivity|]); simpl;
      rewrite <- ?app_assoc; (split; [reflexivity|]);
      split_and!; auto; try (by intros [? ?]); try done;
      intros p [= <-]; split; [done|]; simpl; rewrite lookup_insert_eq; by eexists.
Qed.

Lemma process_from_file_events (E : env) (p : option string) (w : world) :
  exists r evs,
    process_track_records_from_file E p w = (r, World (files w) (trace w ++ evs))
    /\ submitted evs = [] /\ searches evs = [] /\ fetches evs = [].
Proof.
  destruct p as [path|].
  - destruct (process_from_file_path_run E path w) as (records & evs & -> & Hevs).
    exists (Ok records), evs. split; [done|].
    destruct (files w !! path) as [[|[data|]]|]; destruct Hevs as [_ ->]; done.
  - exists (Raise TypeError), []. by rewrite world_eta.
Qed.

(** A channel's run: what comes before the loop, then the loop. *)
Lemma download_a_channel_events (E : env) (channel : string) (w : world) :
  exists r w' evs0 tracks evs,
    download_a_channel E channel w = (r, w')
    /\ trace w' = trace w ++ evs0 ++ evs
    /\ submitted evs0 = [] /\ searches evs0 = []
    /\ (fetches evs0 = [] \/ fetches evs0 = [channel_url channel])
    /\ (is_Some (files w !! channel_json_path channel) -> fetches evs0 = [])
    /\ dispatched E channel tracks evs.
Proof.
  assert (dispatched E channel [] []) as Hnone.
  { unfold dispatched. simpl. split_and!; auto. }
  destruct (getChannelJson_events E channel w)
    as (r1 & w1 & evs1 & Hget & Ht1 & Hq1 & Hs1 & Hf1 & Hc1 & _).
  unfold download_a_channel. run. rewrite Hget.
  destruct r1 as [p|e].
  2:{ exists (Raise e), w1, evs1, [], []. rewrite app_nil_r. split_and!; done. }
  run.
  destruct (process_from_file_events E p w1) as (r2 & evs2 & -> & Hq2 & Hs2 & Hf2).
  destruct r2 as [track_list|e].
  2:{ eexists (Raise e), _, (evs1 ++ evs2), [], []. rewrite app_nil_r.
      rewrite submitted_app, searches_app, fetches_app, Hq1, Hq2, Hs1, Hs2, Hf2.
      split_and!; rewrite ?app_nil_r; auto. simpl. by rewrite Ht1, <- app_assoc. }
  run.
  destruct (dispatch_events E channel track_list
              (World (files w1)
                 ((trace w1 ++ evs2)
                  ++ [Log INFO ("Downloading "
                                +:+ str_of_int (Z.of_nat (length track_list))
                                +:+ " tracks to " +:+ dst_folder channel)])))
    as (r3 & w3 & evs3 & -> & Ht3 & Hd3).
  exists r3, w3,
    (evs1 ++ evs2 ++ [Log INFO ("Downloading "
                                +:+ str_of_int (Z.of_nat (length track_list))
                                +:+ " tracks to " +:+ dst_folder channel)]),
    track_list, evs3.
  rewrite !submitted_app, !searches_app, !fetches_app, Hq1, Hq2, Hs1, Hs2, Hf2.
  simpl. split_and!; rewrite ?app_nil_r; auto.
  rewrite Ht3. simpl. rewrite Ht1. by rewrite <- !app_assoc.
Qed.

Lemma has_char_sanitize (track : string) :
  has_char "/" (sanitize track) = false
  /\ has_char backslash (sanitize track) = false.
Proof.
  unfold sanitize. induction track as [|c track [IH1 IH2]]; [done|].
  simpl. rewrite IH1, IH2.
  destruct (decide (c = "/"%char)) as [->|Hs]; [done|].
  destruct (decide (c = backslash)) as [->|Hb]; [done|].
  by rewrite !bool_decide_eq_false_2.
Qed.

(** X7: the dispatcher's loop makes no request to the playlist service, at
    most one search for each record of its list and at most one task for
    each search; every task it hands to the pool is made of the sanitized
    name of a record of the list (which holds no slash and no backslash),
    the quality "192", the channel's folder and the [--download] flag. *)
Theorem dispatch_tasks_from_records
    (E : env) (channel : string) (tracks : list string) (w : world) :
  exists evs,
    trace (snd (dispatch E channel tracks w)) = trace w ++ evs
    /\ fetches evs = []
    /\ (length (searches evs) <= length tracks)%nat
    /\ (length (submitted evs) <= length (searches evs))%nat
    /\ Forall (fun t => exists track,
                 track ∈ tracks
                 /\ t = Task (task_url t) (sanitize track) "192"
                             (dst_folder channel) (args_download (args E))
                 /\ has_char "/" (task_filename t) = false
                 /\ has_char backslash (task_filename t) = false)
              (submitted evs).
Proof.
  destruct (dispatch_events E channel tracks w)
    as (r & w' & evs & -> & Ht & Hf & Hs & Hq & Htasks).
  exists evs. split_and!; try done.
  eapply Forall_impl; [exact Htasks|]. intros t (track & Hin & Ht').
  exists track. split_and!; try done; rewrite Ht'; simpl; apply has_char_sanitize.
Qed.


(** X10: a channel's run makes at most one request to the playlist
    service, to the channel's most-heard URL, and none when the cache file
    of the channel is there. *)
Theorem channel_run_fetches_at_most_once
    (E : env) (channel : string) (w : world) :
  exists evs,
    trace (snd (download_a_channel E channel w)) = trace w ++ evs
    /\ (fetches evs = [] \/ fetches evs = [channel_url channel])
    /\ (is_Some (files w !! channel_json_path channel) -> fetches evs = []).
Proof.
  destruct (download_a_channel_events E channel w)
    as (r & w' & evs0 & tracks & evs & -> & Ht & _ & _ & Hf0 & Hc0 & Hd).
  exists (evs0 ++ evs). split; [done|].
  destruct Hd as (Hf & _). rewrite fetches_app, Hf, app_nil_r. auto.
Qed.

Lemma sanitize_length (track : string) :
  String.length (sanitize track) = String.length track.
Proof.
  unfold sanitize. induction track as [|c track IH]; [done|]. simpl. by rewrite IH.
Qed.

Lemma sanitize_clean (track : string) :
  has_char "/" track = false -> has_char backslash track = false ->
  sanitize track = track.
Proof.
  unfold sanitize. induction track as [|c track IH]; [done|]. simpl.
  intros [Hs H1]%orb_false_iff [Hb H2]%orb_false_iff.
  apply bool_decide_eq_false in Hs, Hb.
  rewrite (decide_False (P := c = "/"%char)) by done.
  rewrite (decide_False (P := c = backslash)) by done.
  by rewrite IH.
Qed.

(** X9: a sanitized name holds no slash and no backslash and is as long as
    the record; sanitizing twice changes nothing more, and a record with no
    slash and no backslash is its own sanitized name. *)
Theorem sanitize_safe (track : string) :
  has_char "/" (sanitize track) = false
  /\ has_char backslash (sanitize track) = false
  /\ String.length (sanitize track) = String.length track
  /\ sanitize (sanitize track) = sanitize track
  /\ (has_char "/" track = false -> has_char backslash track = false ->
      sanitize track = track).
Proof.
  destruct (has_char_sanitize track) as [Hs Hb].
  split_and!; [done|done|apply sanitize_length| |apply sanitize_clean].
  by apply sanitize_clean.
Qed.

(** One turn of the loop on a record, by what the search answers. *)
Lemma dispatch_record_run
    (E : env) (json_data : pyval) (records : list string) (r channel : string)
    (w : world) :
  process_track_records E json_data = Ok records ->
  r ∈ records ->
  files w !! mp3_path channel r = None ->
  dispatch_track E channel r w
  = match yt_search E r with
    | Raise e =>
        (Raise e,
         World (files w)
               (trace w ++ [Log INFO ("working on track: " +:+ r); YtSearch r]))
    | Ok results =>
        (Ok tt,
         World (files w)
               (trace w
                ++ [Log INFO ("working on track: " +:+ r); YtSearch r]
                ++ scan_log results results
                ++ [match first_song results with
                    | Some url =>
                        ApplyAsync (Task url (sanitize r) "192" (dst_folder channel)
                                         (args_download (args E)))
                    | None => Log ERROR "ERROR: SONG NOT FOUND"
                    end]))
    end.
Proof.
  intros Hp Hr Hfile.
  apply process_track_records_records in Hp.
  rewrite Forall_forall in Hp. destruct (Hp r Hr) as (x & y & Hxy).
  destruct (py_split1_two " - " x y) as (a & t & Hs & Hj).
  rewrite <- Hxy in Hs, Hj. fold (search_param a t) in Hj.
  rewrite dispatch_track_turn. simpl. rewrite Hfile.
  rewrite bool_decide_eq_false_2 by (by intros [? ?]).
  unfold turn. rewrite Hs. simpl. rewrite Hj.
  by destruct (yt_search E r) as [results|e].
Qed.

(** X11: for a record of the normalizer whose file is not there, the turn
    of the loop makes exactly one search, whose query is the record itself.
    If the search raises, the turn raises the same and nothing more is done;
    otherwise the turn hands over one task, for the first result that
    passes, under the record's sanitized name, or logs that no song was
    found. *)
Theorem dispatcher_searches_the_record
    (E : env) (json_data : pyval) (records : list string) (r channel : string)
    (w : world) :
  process_track_records E json_data = Ok records ->
  r ∈ records ->
  files w !! mp3_path channel r = None ->
  dispatch_track E channel r w
  = match yt_search E r with
    | Raise e =>
        (Raise e,
         World (files w)
               (trace w ++ [Log INFO ("working on track: " +:+ r); YtSearch r]))
    | Ok results =>
        (Ok tt,
         World (files w)
               (trace w
                ++ [Log INFO ("working on track: " +:+ r); YtSearch r]
                ++ scan_log results results
                ++ [match first_song results with
                    | Some url =>
                        ApplyAsync (Task url (sanitize r) "192" (dst_folder channel)
                                         (args_download (args E)))
                    | None => Log ERROR "ERROR: SONG NOT FOUND"
                    end]))
    end.
Proof. apply dispatch_record_run. Qed.

(** X11, a run: the record of the one-track playlist, on an empty disk. *)
Lemma dispatcher_searches_the_record_run :
  dispatch_track sample_env "hits1" "A, B - T" empty_world
  = (Ok tt,
     World ∅ [Log INFO "working on track: A, B - T"; YtSearch "A, B - T";
              ApplyAsync (Task "https://music.youtube.com/watch?v=v0" "A, B - T"
                               "192" "sirius-hits1" false)]).
Proof.
  apply (dispatcher_searches_the_record sample_env
           (playlist [track_of [PStr "A"; named (PStr "B")] (PStr "T")])
           ["A, B - T"]).
  - reflexivity.
  - apply list_elem_of_here.
  - reflexivity.
Defined.

(** X12: with the cache file of the channel there and holding JSON, a
    channel's run is one info line with the number of records, then the
    dispatcher's loop over the records of the file's content: nothing is
    fetched and nothing is written. *)
Theorem cached_channel_run
    (E : env) (channel : string) (w : world) (data : pyval) (records : list string) :
  files w !! channel_json_path channel = Some (File (Some data)) ->
  process_track_records E data = Ok records ->
  download_a_channel E channel w
  = dispatch E channel records
      (World (files w)
             (trace w ++ [Log INFO ("Downloading "
                                    +:+ str_of_int (Z.of_nat (length records))
                                    +:+ " tracks to " +:+ dst_folder channel)])).
Proof.
  intros Hfile Hrec. unfold download_a_channel. run.
  rewrite getChannelJson_cached by (by rewrite Hfile). run.
  destruct (process_from_file_path_run E (channel_json_path channel) w)
    as (records' & evs & -> & Hevs).
  rewrite Hfile in Hevs. destruct Hevs as [Hrec' ->].
  assert (records' = records) as -> by congruence.
  run. by rewrite app_nil_r.
Qed.

(** X12, a run: a cached playlist of one track. *)
Lemma cached_channel_run_run :
  let w := World {[ channel_json_path "hits1"
                    := File (Some (playlist [track_of [PStr "A"] (PStr "T")])) ]} [] in
  download_a_channel sample_env "hits1" w
  = dispatch sample_env "hits1" ["A - T"]
      (World (files w) [Log INFO "Downloading 1 tracks to sirius-hits1"]).
Proof.
  intros w.
  apply (cached_channel_run sample_env "hits1" w
           (playlist [track_of [PStr "A"] (PStr "T")]) ["A - T"]).
  - vm_compute. reflexivity.
  - reflexivity.
Defined.



(** ** Properties of the station cache *)










(** ** Properties of the channel listing *)



















(** ** More properties of a channel's run *)

(** X20: when nothing else writes to the disk and the file of every record
    of the list is there, the loop makes no search and hands nothing to the
    pool: it logs the two lines of a skipped record for each record, in
    order, and returns. *)
Theorem downloaded_channel_is_skipped
    (E : env) (channel : string) (tracks : list string) (w : world) :
  (forall w', disk_drift E w' = files w') ->
  Forall (fun track => is_Some (files w !! mp3_path channel track)) tracks ->
  dispatch E channel tracks w
  = (Ok tt, World (files w) (trace w ++ flat_map skip_log tracks)).
Proof.
  intros Hquiet Hthere. revert w Hthere.
  induction tracks as [|track rest IH]; intros w Hthere.
  - simpl. by rewrite world_eta.
  - apply Forall_cons in Hthere as [Hfile Hrest].
    rewrite dispatch_cons, Hquiet, dispatch_track_turn. simpl.
    rewrite bool_decide_eq_true_2 by done. simpl.
    rewrite IH by done. simpl. by rewrite <- app_assoc.
Qed.

(** X20, a run: two records, both files there. *)
Lemma downloaded_channel_is_skipped_run :
  let w := World {[ mp3_path "hits1" "A - T" := File None;
                    mp3_path "hits1" "C/D - U" := File None ]} [] in
  dispatch sample_env "hits1" ["A - T"; "C/D - U"] w
  = (Ok tt, World (files w) (trace w ++ flat_map skip_log ["A - T"; "C/D - U"])).
Proof.
  intros w. apply downloaded_channel_is_skipped.
  - reflexivity.
  - repeat constructor; vm_compute; by eexists.
Defined.

(** X21: a search that raises ends the loop at once: the exception leaves
    the loop and the records after the one being searched are not looked at
    (no log line, no search, no task for them). *)
Theorem search_failure_ends_the_loop
    (E : env) (json_data : pyval) (records : list string) (r : string)
    (rest : list string) (channel : string) (w : world) (e : exn) :
  process_track_records E json_data = Ok records ->
  r ∈ records ->
  disk_drift E w !! mp3_path channel r = None ->
  yt_search E r = Raise e ->
  dispatch E channel (r :: rest) w
  = (Raise e,
     World (disk_drift E w)
           (trace w ++ [Log INFO ("working on track: " +:+ r); YtSearch r])).
Proof.
  intros Hp Hr Hfile Hsearch. rewrite dispatch_cons.
  rewrite (dispatch_record_run E json_data records r channel _ Hp Hr) by done.
  by rewrite Hsearch.
Qed.

(** X21, a run: the search client cannot connect. *)
Lemma search_failure_ends_the_loop_run :
  let E := env_with (http_get sample_env) (fun _ => Raise RequestsConnectionError) in
  dispatch E "hits1" ["A - T"; "C - U"] empty_world
  = (Raise RequestsConnectionError,
     World (disk_drift E empty_world)
           (trace empty_world ++ [Log INFO ("working on track: " +:+ "A - T");
                                  YtSearch "A - T"])).
Proof.
  intros E.
  apply (search_failure_ends_the_loop E (playlist [track_of [PStr "A"] (PStr "T")])
           ["A - T"]).
  - reflexivity.
  - apply list_elem_of_here.
  - reflexivity.
  - reflexivity.
Defined.


